(** * spring_boot_exporter.py: a shallow embedding and its properties

    The exporter lists the containers of a Rancher environment, keeps the
    ones running on its own host, polls the [/metrics] endpoint of each and
    re-exports the values through [prometheus_client].

    Layout of this development:
    - [PyStr]: the few [str] operations the program uses ([find], slicing,
      [split], the [re.sub] call of [register_metrics]);
    - the data of the program (containers, instance descriptors, the
      registry as the sequence of calls made on [prometheus_client]);
    - the outside world ([requests.get] answers) and the monad threading the
      reader's state, its output and Python exceptions;
    - [RancherClient], [MetricsReader], [generate_registry], [do_GET];
    - the vocabulary in which the properties are stated, and concrete
      environments ([Scenario]) on which the program is run;
    - the properties, one section per subject.

    Python [str] values are modelled by [string]; every operation used by
    the program works character by character, so the character set plays no
    role. *)

From Stdlib Require Import ZArith QArith Ascii Lia.
From stdpp Require Import base strings list gmap.

Local Open Scope Z_scope.

(* ===================================================================== *)
(** ** Python string operations *)
(* ===================================================================== *)

Module PyStr.

(** [startswith p s]: [s.startswith(p)]. *)
Fixpoint startswith (p s : string) : bool :=
  match p, s with
  | EmptyString, _ => true
  | String a p', String b s' => if decide (a = b) then startswith p' s' else false
  | String _ _, EmptyString => false
  end.

(** [find_from s sub i]: scan of [s] (whose first character has index [i]
    in the original string) for the first occurrence of [sub]. *)
Fixpoint find_from (s sub : string) (i : Z) : Z :=
  if startswith sub s then i
  else match s with
       | EmptyString => -1
       | String _ s' => find_from s' sub (i + 1)
       end.

(** [find s sub]: [s.find(sub)], the lowest index of an occurrence of
    [sub] in [s], or [-1]. *)
Definition find (s sub : string) : Z := find_from s sub 0.

(** [slice_from n s]: [s[n:]] for a non-negative literal [n]; a string
    shorter than [n] gives [""]. *)
Fixpoint slice_from (n : nat) (s : string) : string :=
  match n, s with
  | O, _ => s
  | S _, EmptyString => EmptyString
  | S n', String _ s' => slice_from n' s'
  end.

(** [sub_char hit repl s]: [re.sub] for a pattern that is a character
    class matching exactly the characters satisfying [hit], with a
    one-character replacement without back-references. *)
Fixpoint sub_char (hit : ascii -> bool) (repl : ascii) (s : string) : string :=
  match s with
  | EmptyString => EmptyString
  | String c s' => String (if hit c then repl else c) (sub_char hit repl s')
  end.

(** [split sep s]: [s.split(sep)] for a one-character separator. The
    result is never empty: [''.split(',') == ['']]. *)
Fixpoint split (sep : ascii) (s : string) : list string :=
  match s with
  | EmptyString => [EmptyString]
  | String c s' =>
      if decide (c = sep) then EmptyString :: split sep s'
      else match split sep s' with
           | [] => [String c EmptyString]
           | f :: fs => String c f :: fs
           end
  end.

(** Python truthiness of a [str]: only [''] is falsy. *)
Definition truthy (s : string) : bool :=
  match s with EmptyString => false | String _ _ => true end.

(** Specification-side notions the operations are compared with. *)
Definition has_prefix (p s : string) : Prop := exists rest, s = p +:+ rest.
Definition is_substring (p s : string) : Prop :=
  exists pre post, s = pre +:+ p +:+ post.

End PyStr.

(* ===================================================================== *)
(** ** Data of the program *)
(* ===================================================================== *)

(** Python exceptions the program can meet. [requests.get] fails with a
    [request_error]; the library [prometheus_client] may refuse a metric or
    a value with an exception of its own choice. *)
Inductive request_error :=
| Timeout (msg : string)
| ConnectionError (msg : string).

Inductive exn :=
| RequestError (e : request_error)
| JSONDecodeError
| UnicodeDecodeError
| KeyError (key : string)
| LibraryError (msg : string).

(** [str(err)] in [load_metrics]. *)
Definition str_of_request_error (e : request_error) : string :=
  match e with Timeout msg => msg | ConnectionError msg => msg end.

(** Outcome of a Python computation. [OutOfFuel] is not a Python outcome:
    it marks a [while] loop cut by the bound of the model. *)
Inductive outcome (A : Type) :=
| Ret (a : A)
| Raise (e : exn)
| OutOfFuel.
Arguments Ret {A} a.
Arguments Raise {A} e.
Arguments OutOfFuel {A}.

Definition rbind {A B} (r : outcome A) (k : A -> outcome B) : outcome B :=
  match r with
  | Ret a => k a
  | Raise e => Raise e
  | OutOfFuel => OutOfFuel
  end.

Declare Scope py_scope.
Delimit Scope py_scope with py.
Notation "x <-? c ;; k" := (rbind c (fun x => k))
  (at level 100, c at next level, right associativity) : py_scope.
Local Open Scope py_scope.

(** An entry of [{base}hosts]. *)
Record host_entry := { host_id : string; host_hostname : string }.

(** An entry of [{base}containers]. *)
Record container := {
  imageUuid : string;
  name : string;
  primaryIpAddress : string;
  labels : gmap string string;
  state : string;
  hostId : string
}.

(** A page of [{base}containers]: [data] and [pagination.next] ([None] is
    JSON [null]). *)
Record page := { page_data : list container; pagination_next : option string }.

(** The dictionary [data] built by [_extract_spring_boot_apps]; the key
    ['stack-name'] holds [None] when the label is missing. *)
Record App := {
  app_image : string;
  app_name : string;
  app_ip : string;
  app_stack_name : option string;
  app_state : string;
  app_host : string
}.

(** The JSON object served by an instance on [/metrics]: its keys, which
    are distinct, in the order of iteration of the decoded [dict], each with
    its value. *)
Definition snapshot := list (string * Q).

(** What a [GET] on a URL gives once the program has decoded the body:
    [requests.get] raised, or the body could not be decoded, or the
    decoded document. *)
Inductive fetched (A : Type) :=
| RequestFailed (e : request_error)
| Undecodable
| Decoded (a : A).
Arguments RequestFailed {A} e.
Arguments Undecodable {A}.
Arguments Decoded {A} a.

(** The network, one view per kind of document the program reads. An
    endpoint always answers the same way during one build. *)
Record World := {
  hosts_endpoint : string -> fetched (list host_entry);
  containers_endpoint : string -> fetched page;
  metrics_endpoint : string -> fetched snapshot;
  text_endpoint : string -> fetched string
}.

(** *** The registry of [prometheus_client]

    The library is not part of the program. A registry is modelled by what
    the program did to it: the metric objects constructed on it, in order
    (an object is identified by its position), and the values sent to the
    labelled children of these objects. *)
Inductive kind := Counter | Gauge | Summary.

Global Instance kind_eq_dec : EqDecision kind.
Proof. solve_decision. Defined.

(** Label values [name], [stackName], [ip] of a child. *)
Definition label_values : Type := string * option string * string.

Record CollectorRegistry := {
  collectors : list (kind * string);
  samples : list (nat * label_values * Q)
}.

(** What the library decides: whether it refuses a new metric given the
    ones already registered, whether it refuses a value, how it restricts
    and serialises a registry. *)
Record PrometheusClient := {
  reject_collector : list (kind * string) -> kind -> string -> option exn;
  reject_sample : kind -> Q -> option exn;
  restricted_registry : CollectorRegistry -> list string -> CollectorRegistry;
  generate_latest : CollectorRegistry -> exn + string;
  CONTENT_TYPE_LATEST : string
}.

(** Command line, as left in [PARSED] by [main]. *)
Record Namespace := {
  rancher : string;
  image_filter : option string;
  test : bool
}.

(* ===================================================================== *)
(** ** class RancherClient *)
(* ===================================================================== *)

Module RancherClient.
Import PyStr.

Record t := {
  rancherApiUrl : string;
  filterPattern : option (list string);
  hosts_metadata : gmap string string;
  self_host : string
}.

Section Methods.
Context (w : World).

(** [load_url]: the GET and [json.loads] are not guarded. *)
Definition load_url {A} (endpoint : World -> string -> fetched A)
    (url : string) : outcome A :=
  match endpoint w url with
  | RequestFailed e => Raise (RequestError e)
  | Undecodable => Raise JSONDecodeError
  | Decoded a => Ret a
  end.

(** [load_hosts_metadata]: a later entry overwrites an earlier one with
    the same id. *)
Definition load_hosts_metadata (api : string) : outcome (gmap string string) :=
  data <-? load_url hosts_endpoint (api +:+ "hosts") ;;
  Ret (foldl (fun m host => <[host_id host := host_hostname host]> m) ∅ data).

Definition get_self_hostname : outcome string :=
  match text_endpoint w "http://rancher-metadata/2015-12-19/self/host/hostName" with
  | RequestFailed e => Raise (RequestError e)
  | Undecodable => Raise UnicodeDecodeError
  | Decoded s => Ret s
  end.

(** [__init__]: [filter] is [None] when the option is not given. *)
Definition init (rancherApiUrl : string) (filter : option string) : outcome t :=
  let filterPattern :=
    match filter with
    | None => None
    | Some f => if truthy f then Some (split "," f) else None
    end in
  hosts <-? load_hosts_metadata rancherApiUrl ;;
  self_host <-? get_self_hostname ;;
  Ret {| rancherApiUrl := rancherApiUrl; filterPattern := filterPattern;
         hosts_metadata := hosts; self_host := self_host |}.

Definition _get_spring_boot_app_host (self : t) (c : container) : outcome string :=
  match hosts_metadata self !! hostId c with
  | Some h => Ret h
  | None => Raise (KeyError (hostId c))
  end.

Definition filter (self : t) (data : App) : bool :=
  if negb (String.eqb (app_host data) (self_host self)) then false
  else if String.eqb (app_state data) "stopped" then false
  else match filterPattern self with
       | None | Some [] => true
       | Some patterns =>
           existsb (fun pattern => negb (find (app_image data) pattern =? -1))
                   patterns
       end.

(** [_extract_spring_boot_apps]: [result] is the list the caller
    accumulates into; the descriptor is built, host included, before
    [filter] is asked. *)
Fixpoint _extract_spring_boot_apps (self : t) (containers : list container)
    (result : list App) : outcome (list App) :=
  match containers with
  | [] => Ret result
  | c :: rest =>
      host <-? _get_spring_boot_app_host self c ;;
      let data := {| app_image := imageUuid c; app_name := name c;
                     app_ip := primaryIpAddress c;
                     app_stack_name := labels c !! "io.rancher.stack.name";
                     app_state := state c; app_host := host |} in
      if filter self data
      then _extract_spring_boot_apps self rest (result ++ [data])
      else _extract_spring_boot_apps self rest result
  end.

(** The loop [while url:] of [get_spring_boot_apps]; [fuel] bounds the
    number of pages read. *)
Fixpoint while_url (fuel : nat) (self : t) (url : option string)
    (result : list App) : outcome (list App) :=
  match url with
  | None => Ret result
  | Some u =>
      if truthy u then
        match fuel with
        | O => OutOfFuel
        | S fuel' =>
            parsed_data <-? load_url containers_endpoint u ;;
            result' <-? _extract_spring_boot_apps self (page_data parsed_data) result ;;
            while_url fuel' self (pagination_next parsed_data) result'
        end
      else Ret result
  end.

Definition get_spring_boot_apps (fuel : nat) (self : t) : outcome (list App) :=
  while_url fuel self (Some (rancherApiUrl self +:+ "containers")) [].

End Methods.
End RancherClient.

(* ===================================================================== *)
(** ** class MetricsReader *)
(* ===================================================================== *)

Module MetricsReader.
Import PyStr.

(** The reader and the registry it was given; [generate_registry] holds
    the same registry object, so it is kept inside the reader's state. The
    dictionaries map a metric name to the object built for it. *)
Record t := {
  registry : CollectorRegistry;
  _counters : gmap string nat;
  _gauges : gmap string nat;
  _summaries : gmap string nat
}.

(** [__init__] *)
Definition init (registry : CollectorRegistry) : t :=
  {| registry := registry; _counters := ∅; _gauges := ∅; _summaries := ∅ |}.

(** A method of the reader: from the reader's state to an outcome, the
    state left behind (also when an exception is raised) and the lines
    printed on standard output. *)
Definition M (A : Type) : Type := t -> outcome A * t * list string.

Definition ret {A} (a : A) : M A := fun r => (Ret a, r, []).
Definition raise {A} (e : exn) : M A := fun r => (Raise e, r, []).
Definition bind {A B} (m : M A) (k : A -> M B) : M B :=
  fun r =>
    match m r with
    | (Ret a, r', out) => let '(b, r'', out') := k a r' in (b, r'', out ++ out')
    | (Raise e, r', out) => (Raise e, r', out)
    | (OutOfFuel, r', out) => (OutOfFuel, r', out)
    end.
Definition print (line : string) : M unit := fun r => (Ret tt, r, [line]).
Definition get : M t := fun r => (Ret r, r, []).
Definition modify (f : t -> t) : M unit := fun r => (Ret tt, f r, []).

Notation "x <- c ;; k" := (bind c (fun x => k))
  (at level 100, c at next level, right associativity) : py_scope.
Notation "c ;;; k" := (bind c (fun _ => k))
  (at level 100, k at level 200, right associativity) : py_scope.

(** [for x in l: body(x)] *)
Fixpoint for_each {A} (l : list A) (body : A -> M unit) : M unit :=
  match l with
  | [] => ret tt
  | x :: rest => body x ;;; for_each rest body
  end.

(** The dictionary of the reader holding the objects of one kind. *)
Definition cache (k : kind) (r : t) : gmap string nat :=
  match k with
  | Counter => _counters r
  | Gauge => _gauges r
  | Summary => _summaries r
  end.

Definition set_cache (k : kind) (metric_name : string) (obj : nat) (r : t) : t :=
  match k with
  | Counter => {| registry := registry r; _counters := <[metric_name := obj]> (_counters r);
                  _gauges := _gauges r; _summaries := _summaries r |}
  | Gauge => {| registry := registry r; _counters := _counters r;
                _gauges := <[metric_name := obj]> (_gauges r); _summaries := _summaries r |}
  | Summary => {| registry := registry r; _counters := _counters r;
                  _gauges := _gauges r; _summaries := <[metric_name := obj]> (_summaries r) |}
  end.

Definition with_registry (reg : CollectorRegistry) (r : t) : t :=
  {| registry := reg; _counters := _counters r; _gauges := _gauges r;
     _summaries := _summaries r |}.

Definition labels_of (app : App) : label_values :=
  (app_name app, app_stack_name app, app_ip app).

Section Methods.
Context (w : World) (lib : PrometheusClient).

(** [Counter(...)], [Gauge(...)] or [Summary(...)] with
    [registry=self.registry]: the library refuses, or the object is added
    to the registry. *)
Definition new_metric (k : kind) (metric_name : string) : M nat :=
  fun r =>
    let reg := registry r in
    match reject_collector lib (collectors reg) k metric_name with
    | Some e => (Raise e, r, [])
    | None =>
        (Ret (length (collectors reg)),
         with_registry {| collectors := collectors reg ++ [(k, metric_name)];
                          samples := samples reg |} r,
         [])
    end.

(** [obj.labels(...).inc(value)], [.set(value)] or [.observe(value)],
    according to the kind of [obj]. *)
Definition send_value (k : kind) (obj : nat) (lbls : label_values) (value : Q) : M unit :=
  fun r =>
    let reg := registry r in
    match reject_sample lib k value with
    | Some e => (Raise e, r, [])
    | None =>
        (Ret tt,
         with_registry {| collectors := collectors reg;
                          samples := samples reg ++ [(obj, lbls, value)] |} r,
         [])
    end.

(** The three methods [_register_counter], [_register_gauge] and
    [_register_summary] have the same text up to the class constructed,
    the dictionary used and the method called on the child; [_register]
    is that text, with the kind as a parameter. *)
Definition _register (k : kind) (app : App) (metric_name : string) (value : Q) : M unit :=
  self <- get ;;
  match cache k self !! metric_name with
  | None => obj <- new_metric k metric_name ;; modify (set_cache k metric_name obj)
  | Some _ => ret tt
  end ;;;
  self <- get ;;
  match cache k self !! metric_name with
  | Some obj => send_value k obj (labels_of app) value
  | None => raise (KeyError metric_name)
  end.

Definition _register_counter := _register Counter.
Definition _register_gauge := _register Gauge.
Definition _register_summary := _register Summary.

Definition _format_metrics_url (app : App) : string :=
  "http://" +:+ app_ip app +:+ ":8080/metrics".

(** [load_metrics]: only [requests.get] is inside the [try]. *)
Definition load_metrics (app : App) : M (option snapshot) :=
  let url := _format_metrics_url app in
  match metrics_endpoint w url with
  | RequestFailed err => print ("Catch " +:+ str_of_request_error err) ;;; ret None
  | Undecodable => raise JSONDecodeError
  | Decoded metrics => ret (Some metrics)
  end.

(** The character class of the pattern [[\.\-]]. *)
Definition dot_or_dash (c : ascii) : bool :=
  bool_decide (c = "."%char) || bool_decide (c = "-"%char).

(** [re.sub(r'[\.\-]', '_', m)] *)
Definition sanitize (m : string) : string := sub_char dot_or_dash "_" m.

(** Body of the loop [for m in metrics] of [register_metrics]; [value]
    is [metrics[m]]. *)
Definition register_metric (app : App) (m : string) (value : Q) : M unit :=
  let metric_name := sanitize m in
  if find m "counter" =? 0 then _register_counter app (slice_from 8 metric_name) value
  else if find m "gauge" =? 0 then _register_gauge app (slice_from 6 metric_name) value
  else _register_summary app metric_name value.

Definition register_metrics (app : App) : M unit :=
  metrics <- load_metrics app ;;
  match metrics with
  | None => ret tt
  | Some metrics => for_each metrics (fun '(m, value) => register_metric app m value)
  end.

End Methods.
End MetricsReader.

(* ===================================================================== *)
(** ** generate_registry and the HTTP handler *)
(* ===================================================================== *)

Section Exporter.
Context (w : World) (lib : PrometheusClient) (PARSED : Namespace).

(** [CollectorRegistry(auto_describe=True)] *)
Definition new_registry : CollectorRegistry := {| collectors := []; samples := [] |}.

(** [generate_registry]: the registry built, or the exception that ended
    the build, and the lines printed meanwhile. *)
Definition generate_registry (fuel : nat) : outcome CollectorRegistry * list string :=
  let registry := new_registry in
  let reader := MetricsReader.init registry in
  match RancherClient.init w (rancher PARSED) (image_filter PARSED) with
  | Ret client =>
      match RancherClient.get_spring_boot_apps w fuel client with
      | Ret apps =>
          match MetricsReader.for_each apps (MetricsReader.register_metrics w lib) reader with
          | (Ret _, reader', out) => (Ret (MetricsReader.registry reader'), out)
          | (Raise e, _, out) => (Raise e, out)
          | (OutOfFuel, _, out) => (OutOfFuel, out)
          end
      | Raise e => (Raise e, [])
      | OutOfFuel => (OutOfFuel, [])
      end
  | Raise e => (Raise e, [])
  | OutOfFuel => (OutOfFuel, [])
  end.

(** What [MetricsHandler] writes to the client. *)
Inductive wire :=
| send_response (code : Z)
| send_header (keyword value : string)
| end_headers
| wfile_write (output : string)
| send_error (code : Z) (message : string).

(** [do_GET]; [names] is [params.get('name[]')] of the parsed query
    string. The result is the handler's outcome, what it wrote to the
    client and what the build printed. *)
Definition do_GET (fuel : nat) (names : option (list string))
    : outcome unit * list wire * list string :=
  match generate_registry fuel with
  | (Ret registry, out) =>
      let registry :=
        match names with
        | Some ns => restricted_registry lib registry ns
        | None => registry
        end in
      match generate_latest lib registry with
      | inl e => (Raise e, [send_error 500 "error generating metric output"], out)
      | inr output =>
          (Ret tt,
           [send_response 200; send_header "Content-Type" (CONTENT_TYPE_LATEST lib);
            end_headers; wfile_write output],
           out)
      end
  | (Raise e, out) => (Raise e, [], out)
  | (OutOfFuel, out) => (OutOfFuel, [], out)
  end.

End Exporter.

(* ===================================================================== *)
(** ** Vocabulary of the properties *)
(* ===================================================================== *)

Section Vocabulary.
Import PyStr RancherClient MetricsReader.

(** What the specification says happens to one character. *)
Definition sanitized_char (c : ascii) : ascii :=
  if decide (c = "."%char \/ c = "-"%char) then "_"%char else c.

(** No pattern is configured: [filterPattern] is falsy. *)
Definition no_patterns (self : RancherClient.t) : Prop :=
  filterPattern self = None \/ filterPattern self = Some [].

(** Some configured pattern occurs in the image identifier. *)
Definition some_pattern_matches (self : RancherClient.t) (data : App) : Prop :=
  exists patterns pattern,
    filterPattern self = Some patterns /\ pattern ∈ patterns /\
    is_substring pattern (app_image data).

(** A filter string with an empty field: a leading or trailing comma, or
    two commas in a row. *)
Definition has_empty_field (f : string) : Prop :=
  (exists b, f = "," +:+ b) \/ (exists a, f = a +:+ ",") \/
  (exists a b, f = a +:+ ",," +:+ b).

(** The dictionaries of the reader and the registry agree: a name is in
    the dictionary of a kind, bound to an object, exactly when that
    object of the registry is the metric of this kind and name. *)
Definition consistent (r : MetricsReader.t) : Prop :=
  forall k n obj,
    cache k r !! n = Some obj <-> collectors (registry r) !! obj = Some (k, n).

(** The reader after [send_value] was accepted. *)
Definition sent (obj : nat) (lbls : label_values) (value : Q)
    (r : MetricsReader.t) : MetricsReader.t :=
  with_registry {| collectors := collectors (registry r);
                   samples := samples (registry r) ++ [(obj, lbls, value)] |} r.

(** The reader after a new metric object was built and cached. *)
Definition created (k : kind) (n : string) (r : MetricsReader.t) : MetricsReader.t :=
  set_cache k n (length (collectors (registry r)))
    (with_registry {| collectors := collectors (registry r) ++ [(k, n)];
                      samples := samples (registry r) |} r).

(** The classification the specification describes, on the raw key. *)
Inductive classified (m : string) : kind -> string -> Prop :=
| classified_counter :
    has_prefix "counter" m -> classified m Counter (slice_from 8 (sanitize m))
| classified_gauge :
    ~ has_prefix "counter" m -> has_prefix "gauge" m ->
    classified m Gauge (slice_from 6 (sanitize m))
| classified_summary :
    ~ has_prefix "counter" m -> ~ has_prefix "gauge" m ->
    classified m Summary (sanitize m).

(** [linked url pages last]: reading from [url] meets the pages [pages]
    one after the other, each at the URL given by the [pagination.next] of
    the page before, and the last one gives [last] as its next URL. *)
Fixpoint linked (w : World) (url : option string) (pages : list page)
    (last : option string) : Prop :=
  match pages with
  | [] => url = last
  | p :: ps =>
      exists u, url = Some u /\ truthy u = true /\
                containers_endpoint w u = Decoded p /\
                linked w (pagination_next p) ps last
  end.

(** The descriptor built for a container whose host is [host]. *)
Definition descriptor (c : container) (host : string) : App :=
  {| app_image := imageUuid c; app_name := name c; app_ip := primaryIpAddress c;
     app_stack_name := labels c !! "io.rancher.stack.name";
     app_state := state c; app_host := host |}.

(** The descriptor of a container, when its host is known. *)
Definition describe (self : RancherClient.t) (c : container) : option App :=
  descriptor c <$> hosts_metadata self !! hostId c.

(** The URL read by [get_self_hostname]. *)
Definition self_hostname_url : string :=
  "http://rancher-metadata/2015-12-19/self/host/hostName".

(** The dictionary [hosts_metadata] built from the entries of
    [{base}hosts]. *)
Definition hosts_dict (hosts : list host_entry) : gmap string string :=
  foldl (fun m host => <[host_id host := host_hostname host]> m) ∅ hosts.

End Vocabulary.

(* ===================================================================== *)
(** ** Scenarios: concrete environments on which the program is run *)
(* ===================================================================== *)

Module Scenario.
Import PyStr.

(** A library that accepts everything and serialises to the empty text. *)
Definition lib : PrometheusClient :=
  {| reject_collector := fun _ _ _ => None;
     reject_sample := fun _ _ => None;
     restricted_registry := fun reg _ => reg;
     generate_latest := fun _ => inr "";
     CONTENT_TYPE_LATEST := "text/plain; version=0.0.4; charset=utf-8" |}.

Definition PARSED : Namespace :=
  {| rancher := "http://rancher/v1/"; image_filter := None; test := false |}.

Definition hosts : list host_entry :=
  [ {| host_id := "h1"; host_hostname := "node-a" |};
    {| host_id := "h2"; host_hostname := "node-b" |} ].

Definition running (nm ip : string) : container :=
  {| imageUuid := "docker:app:1"; name := nm; primaryIpAddress := ip;
     labels := ∅; state := "running"; hostId := "h1" |}.

Definition c1 := running "svc1" "10.0.0.1".
Definition c2 := running "svc2" "10.0.0.2".
Definition c3 := running "svc3" "10.0.0.3".
Definition c4 := running "svc4" "10.0.0.4".
Definition c5 := running "svc5" "10.0.0.5".
Definition c6 := running "svc6" "10.0.0.6".

Definition page1 := {| page_data := [c1; c2]; pagination_next := Some "http://rancher/v1/containers?marker=2" |}.
Definition page2 := {| page_data := [c3; c4]; pagination_next := Some "http://rancher/v1/containers?marker=4" |}.
Definition page3 := {| page_data := [c5; c6]; pagination_next := None |}.

Definition app_of (c : container) : App := descriptor c "node-a".

(** Three pages of two running instances of the self host. The first
    instance serves the snapshot of the specification's scenario, the
    request to the second one times out, the third one answers with a body
    that is not JSON, the others serve an empty object. *)
Definition w : World :=
  {| hosts_endpoint := fun url =>
       if decide (url = "http://rancher/v1/hosts") then Decoded hosts else Undecodable;
     containers_endpoint := fun url =>
       if decide (url = "http://rancher/v1/containers") then Decoded page1
       else if decide (url = "http://rancher/v1/containers?marker=2") then Decoded page2
       else if decide (url = "http://rancher/v1/containers?marker=4") then Decoded page3
       else Undecodable;
     metrics_endpoint := fun url =>
       if decide (url = "http://10.0.0.1:8080/metrics")
       then Decoded [("counter.requests.total", 5%Q); ("gauge.queue.size", 3%Q);
                     ("latency", (2 # 10)%Q)]
       else if decide (url = "http://10.0.0.2:8080/metrics")
       then RequestFailed (Timeout "timed out")
       else if decide (url = "http://10.0.0.3:8080/metrics") then Undecodable
       else Decoded [];
     text_endpoint := fun _ => Decoded "node-a" |}.

Definition client (filterPattern : option (list string)) : RancherClient.t :=
  {| RancherClient.rancherApiUrl := "http://rancher/v1/";
     RancherClient.filterPattern := filterPattern;
     RancherClient.hosts_metadata := hosts_dict hosts;
     RancherClient.self_host := "node-a" |}.

(** The same orchestrator with a single page holding a stopped container
    of a host that [{base}hosts] does not list. *)
Definition orphan : container :=
  {| imageUuid := "docker:job:1"; name := "job"; primaryIpAddress := "10.0.0.9";
     labels := ∅; state := "stopped"; hostId := "h9" |}.

Definition orphan_page := {| page_data := [c1; orphan]; pagination_next := None |}.

Definition w_orphan : World :=
  {| hosts_endpoint := hosts_endpoint w;
     containers_endpoint := fun url =>
       if decide (url = "http://rancher/v1/containers") then Decoded orphan_page
       else Undecodable;
     metrics_endpoint := metrics_endpoint w;
     text_endpoint := text_endpoint w |}.

(** The orchestrator cannot be reached. *)
Definition w_down : World :=
  {| hosts_endpoint := fun _ => RequestFailed (ConnectionError "connection refused");
     containers_endpoint := fun _ => RequestFailed (ConnectionError "connection refused");
     metrics_endpoint := metrics_endpoint w;
     text_endpoint := text_endpoint w |}.

(** An instance of the self host whose image matches no pattern. *)
Definition other : App :=
  {| app_image := "docker:nginx:1"; app_name := "web"; app_ip := "10.0.0.7";
     app_stack_name := Some "front"; app_state := "running"; app_host := "node-a" |}.

(** The reader after the counter of the first instance was registered. *)
Definition reader1 : MetricsReader.t :=
  (MetricsReader._register lib Counter (app_of c1) "requests_total" 5%Q
     (MetricsReader.init new_registry)).1.2.

End Scenario.

(* ===================================================================== *)
(** ** Further vocabulary and environments *)
(* ===================================================================== *)

(** Every value recorded in the registry was sent to a metric object that
    the registry holds. *)
Definition anchored (reg : CollectorRegistry) : Prop :=
  forall obj lbls value,
    (obj, lbls, value) ∈ samples reg -> is_Some (collectors reg !! obj).


(** The label values and the value of a recorded sample, without the
    object. *)
Definition sample_payload (s : nat * label_values * Q) : label_values * Q :=
  (s.1.2, s.2).

(** A line reporting the failed request to the [/metrics] endpoint of some
    instance, as [load_metrics] prints it. *)
Definition catch_line (w : World) (line : string) : Prop :=
  exists app err,
    metrics_endpoint w (MetricsReader._format_metrics_url app) = RequestFailed err /\
    line = "Catch " +:+ str_of_request_error err.


Module Environments.
Import Scenario.



(** A second page whose [pagination.next] is its own URL. *)
Definition looping_page :=
  {| page_data := [c3; c4];
     pagination_next := Some "http://rancher/v1/containers?marker=2" |}.

Definition w_cycle : World :=
  {| hosts_endpoint := hosts_endpoint w;
     containers_endpoint := fun url =>
       if decide (url = "http://rancher/v1/containers") then Decoded page1
       else if decide (url = "http://rancher/v1/containers?marker=2")
       then Decoded looping_page
       else Undecodable;
     metrics_endpoint := metrics_endpoint w;
     text_endpoint := text_endpoint w |}.

(** A single page whose [pagination.next] is the empty string. *)
Definition blank_next_page := {| page_data := [c1; c2]; pagination_next := Some "" |}.

Definition w_blank_next : World :=
  {| hosts_endpoint := hosts_endpoint w;
     containers_endpoint := fun url =>
       if decide (url = "http://rancher/v1/containers") then Decoded blank_next_page
       else Undecodable;
     metrics_endpoint := metrics_endpoint w;
     text_endpoint := text_endpoint w |}.

(** The second page of the listing cannot be fetched. *)
Definition w_broken_page : World :=
  {| hosts_endpoint := hosts_endpoint w;
     containers_endpoint := fun url =>
       if decide (url = "http://rancher/v1/containers") then Decoded page1
       else RequestFailed (Timeout "read timed out");
     metrics_endpoint := metrics_endpoint w;
     text_endpoint := text_endpoint w |}.

(** A container of the self host that is stopped, and a running one of
    another host. *)
Definition stopped_here : container :=
  {| imageUuid := "docker:app:1"; name := "old"; primaryIpAddress := "10.0.0.8";
     labels := ∅; state := "stopped"; hostId := "h1" |}.

Definition running_elsewhere : container :=
  {| imageUuid := "docker:app:1"; name := "far"; primaryIpAddress := "10.0.1.1";
     labels := ∅; state := "running"; hostId := "h2" |}.

Definition invisible_page :=
  {| page_data := [stopped_here; running_elsewhere]; pagination_next := None |}.

Definition w_invisible : World :=
  {| hosts_endpoint := hosts_endpoint w;
     containers_endpoint := fun url =>
       if decide (url = "http://rancher/v1/containers") then Decoded invisible_page
       else Undecodable;
     metrics_endpoint := metrics_endpoint w;
     text_endpoint := text_endpoint w |}.

(** A library whose serialisation fails. *)
Definition lib_unserialisable : PrometheusClient :=
  {| reject_collector := reject_collector lib;
     reject_sample := reject_sample lib;
     restricted_registry := restricted_registry lib;
     generate_latest := fun _ => inl (LibraryError "cannot serialise");
     CONTENT_TYPE_LATEST := CONTENT_TYPE_LATEST lib |}.

(** The keys ['a.b'] and ['a-b'] registered one after the other, for two
    instances, by a fresh reader. *)
Definition sanitize_keys_agree : Prop :=
  MetricsReader.sanitize "a.b" = MetricsReader.sanitize "a-b".

Definition two_keys_first : MetricsReader.t :=
  (MetricsReader.register_metric lib (app_of c1) "a.b" 1%Q
     (MetricsReader.init new_registry)).1.2.

Definition two_keys_second : MetricsReader.t :=
  (MetricsReader.register_metric lib (app_of c4) "a-b" 2%Q two_keys_first).1.2.

End Environments.

(* ===================================================================== *)
(** ** Facts on the string operations *)
(* ===================================================================== *)

Section PyStrFacts.
Import PyStr.

Lemma app_empty_l (s : string) : "" +:+ s = s.
Proof. reflexivity. Qed.

Lemma app_cons (c : ascii) (s t : string) : String c s +:+ t = String c (s +:+ t).
Proof. reflexivity. Qed.

Lemma startswith_app (p rest : string) : startswith p (p +:+ rest) = true.
Proof.
  induction p as [|a p IH]; [reflexivity|].
  rewrite app_cons. simpl. by rewrite decide_True.
Qed.

Lemma startswith_has_prefix (p s : string) :
  startswith p s = true <-> has_prefix p s.
Proof.
  split.
  - revert s. induction p as [|a p IH]; intros s H.
    + by exists s.
    + destruct s as [|b s]; [discriminate|]. simpl in H.
      destruct (decide (a = b)) as [->|]; [|discriminate].
      destruct (IH _ H) as [rest ->]. by exists rest.
  - intros [rest ->]. apply startswith_app.
Qed.

Lemma find_from_range (s sub : string) (i : Z) :
  find_from s sub i = -1 \/ i <= find_from s sub i.
Proof.
  revert i. induction s as [|c s IH]; intros i; simpl.
  - destruct (startswith sub ""); [right; lia | by left].
  - destruct (startswith sub (String c s)); [right; lia|].
    destruct (IH (i + 1)) as [->| ]; [by left | right; lia].
Qed.

(** [m.find(p) == 0] is the program's way of writing [m.startswith(p)]. *)
Lemma find_zero_startswith (s p : string) :
  (find s p =? 0) = startswith p s.
Proof.
  unfold find. destruct s as [|c s]; simpl.
  - by destruct (startswith p "").
  - destruct (startswith p (String c s)); [reflexivity|].
    destruct (find_from_range s p (0 + 1)) as [->|]; [reflexivity|].
    apply Z.eqb_neq. lia.
Qed.

Lemma find_from_found (s sub : string) (i : Z) :
  find_from s sub i <> -1 -> 0 <= i -> is_substring sub s.
Proof.
  revert i. induction s as [|c s IH]; intros i H Hi; simpl in H.
  - destruct (startswith sub "") eqn:E; [|done].
    apply startswith_has_prefix in E as [rest E]. exists "", rest. by rewrite app_empty_l.
  - destruct (startswith sub (String c s)) eqn:E.
    + apply startswith_has_prefix in E as [rest E]. exists "", rest. by rewrite app_empty_l.
    + destruct (IH (i + 1) H ltac:(lia)) as (pre & post & ->).
      exists (String c pre), post. by rewrite app_cons.
Qed.

Lemma find_from_substring (pre sub post : string) (i : Z) :
  0 <= i -> find_from (pre +:+ sub +:+ post) sub i <> -1.
Proof.
  revert i. induction pre as [|c pre IH]; intros i Hi.
  - rewrite app_empty_l.
    destruct post as [|d post], sub as [|b sub]; simpl;
      rewrite ?decide_True by done; rewrite ?startswith_app; lia.
  - rewrite app_cons. simpl.
    destruct (startswith sub (String c (pre +:+ sub +:+ post))); [lia|].
    apply IH. lia.
Qed.

(** [s.find(sub) != -1] says exactly that [sub] occurs in [s]. *)
Lemma find_is_substring (s sub : string) :
  find s sub <> -1 <-> is_substring sub s.
Proof.
  split.
  - intros H. by apply (find_from_found s sub 0).
  - intros (pre & post & ->). by apply find_from_substring.
Qed.

Lemma find_empty (s : string) : find s "" = 0.
Proof. unfold find. by destruct s. Qed.

Lemma sub_char_length (hit : ascii -> bool) (r : ascii) (s : string) :
  String.length (sub_char hit r s) = String.length s.
Proof. induction s as [|c s IH]; simpl; by f_equal. Qed.

Lemma sub_char_get (hit : ascii -> bool) (r : ascii) (s : string) (i : nat) :
  String.get i (sub_char hit r s) =
  (fun c => if hit c then r else c) <$> String.get i s.
Proof.
  revert i. induction s as [|c s IH]; intros i; [reflexivity|].
  destruct i as [|i]; simpl; [reflexivity | apply IH].
Qed.

Lemma sub_char_idem (hit : ascii -> bool) (r : ascii) (s : string) :
  hit r = false -> sub_char hit r (sub_char hit r s) = sub_char hit r s.
Proof.
  intros Hr. induction s as [|c s IH]; simpl; [reflexivity|].
  rewrite IH. f_equal. destruct (hit c) eqn:E; [by rewrite Hr | by rewrite E].
Qed.

Lemma split_nonempty (sep : ascii) (s : string) : split sep s <> [].
Proof.
  induction s as [|c s IH]; simpl; [done|].
  destruct (decide (c = sep)); [done|]. by destruct (split sep s).
Qed.

(** Fields on both sides of a separator are split independently. *)
Lemma split_app (sep : ascii) (a b : string) :
  split sep (a +:+ String sep b) = split sep a ++ split sep b.
Proof.
  induction a as [|c a IH].
  - rewrite app_empty_l. simpl. by rewrite decide_True.
  - rewrite app_cons. simpl. destruct (decide (c = sep)).
    + by rewrite IH.
    + rewrite IH. pose proof (split_nonempty sep a).
      by destruct (split sep a).
Qed.

End PyStrFacts.

(* ===================================================================== *)
(** ** Properties of the name sanitization *)
(* ===================================================================== *)

Section Sanitization.
Import PyStr MetricsReader.

Lemma dot_or_dash_spec (c : ascii) :
  (if dot_or_dash c then "_"%char else c) = sanitized_char c.
Proof.
  unfold dot_or_dash, sanitized_char.
  destruct (decide (c = "."%char)) as [->|H1]; [reflexivity|].
  destruct (decide (c = "-"%char)) as [->|H2]; [reflexivity|].
  rewrite !bool_decide_eq_false_2 by done. simpl.
  rewrite decide_False; [reflexivity | tauto].
Qed.

(** C5. The sanitization of a metric key is defined on every key, keeps
    its length, replaces each ['.'] and each ['-'] by ['_'] and leaves
    every other character as it is (position by position), and sanitizing
    a sanitized key changes nothing. *)
Theorem sanitize_total_idempotent (m : string) :
  String.length (sanitize m) = String.length m /\
  (forall i : nat, String.get i (sanitize m) = sanitized_char <$> String.get i m) /\
  sanitize (sanitize m) = sanitize m.
Proof.
  unfold sanitize. split; [apply sub_char_length|]. split.
  - intros i. rewrite sub_char_get.
    destruct (String.get i m) as [c|]; simpl; [|reflexivity].
    by rewrite dot_or_dash_spec.
  - by apply sub_char_idem.
Qed.

End Sanitization.

(* ===================================================================== *)
(** ** Properties of the visibility filter *)
(* ===================================================================== *)

Section Visibility.
Import PyStr RancherClient.

Lemma existsb_find (image : string) (patterns : list string) :
  existsb (fun pattern => negb (find image pattern =? -1)) patterns = true <->
  exists pattern, pattern ∈ patterns /\ is_substring pattern image.
Proof.
  rewrite existsb_exists. split; intros (p & Hin & H); exists p.
  - split; [by apply list_elem_of_In|].
    apply find_is_substring. apply negb_true_iff, Z.eqb_neq in H. exact H.
  - split; [by apply list_elem_of_In|].
    apply negb_true_iff, Z.eqb_neq. by apply find_is_substring.
Qed.

(** C4. [filter] accepts an instance exactly when its host is the self
    host, its state is not ['stopped'], and either no pattern is
    configured or some configured pattern is a substring of its image. *)
Theorem filter_accepts_iff (self : t) (data : App) :
  filter self data = true <->
  app_host data = self_host self /\
  app_state data <> "stopped" /\
  (no_patterns self \/ some_pattern_matches self data).
Proof.
  unfold filter, no_patterns, some_pattern_matches.
  destruct (String.eqb_spec (app_host data) (self_host self)) as [Hh|Hh]; simpl;
    [|split; [discriminate | tauto]].
  destruct (String.eqb_spec (app_state data) "stopped") as [Hs|Hs];
    [split; [discriminate | tauto]|].
  destruct (filterPattern self) as [[|p ps]|] eqn:Hp.
  - split; [|done]. intros _. repeat split; auto.
  - rewrite existsb_find. split.
    + intros (q & Hq & Hsub). repeat split; auto. right. by exists (p :: ps), q.
    + intros (_ & _ & [[?|?] | (pats & q & Heq & Hq & Hsub)]); try discriminate.
      injection Heq as <-. by exists q.
  - split; [|done]. intros _. repeat split; auto.
Qed.

Lemma has_empty_field_split (f : string) :
  has_empty_field f -> truthy f = true /\ "" ∈ split "," f.
Proof.
  intros [[b ->] | [[a ->] | (a & b & ->)]].
  - change ("," +:+ b) with (String "," b).
    split; [reflexivity|]. simpl. apply list_elem_of_here.
  - split; [by destruct a|].
    change (a +:+ ",") with (a +:+ String "," ""). rewrite split_app. simpl.
    apply elem_of_app. right. apply list_elem_of_here.
  - split; [by destruct a|].
    change (a +:+ ",," +:+ b) with (a +:+ String "," (String "," b)). rewrite split_app.
    apply elem_of_app. right. simpl. apply list_elem_of_here.
Qed.

(** C10. When the image-filter string has an empty field (as in ['app,']),
    the client keeps the empty pattern among its patterns, and [filter]
    accepts every instance of the self host that is not stopped, whatever
    its image. *)
Theorem empty_pattern_accepts_all (w : World) (api f : string) (self : t) (data : App)
    (Hf : has_empty_field f)
    (Hinit : init w api (Some f) = Ret self)
    (Hhost : app_host data = self_host self)
    (Hstate : app_state data <> "stopped") :
  filterPattern self = Some (split "," f) /\
  "" ∈ split "," f /\
  find (app_image data) "" = 0 /\
  filter self data = true.
Proof.
  destruct (has_empty_field_split f Hf) as [Ht Hin].
  assert (Hpat : filterPattern self = Some (split "," f)).
  { unfold init in Hinit. rewrite Ht in Hinit.
    destruct (load_hosts_metadata w api); simpl in Hinit; try discriminate.
    destruct (get_self_hostname w); simpl in Hinit; try discriminate.
    by injection Hinit as <-. }
  repeat split; auto using find_empty.
  unfold filter. rewrite Hpat.
  apply String.eqb_eq in Hhost. apply String.eqb_neq in Hstate.
  rewrite Hhost, Hstate. simpl.
  destruct (split "," f) as [|p ps] eqn:Hsplit; [reflexivity|].
  apply existsb_find. exists "". split; [done|].
  exists "", (app_image data). by rewrite !app_empty_l.
Qed.

End Visibility.

(* ===================================================================== *)
(** ** Properties of the reader: classification, caches, failures *)
(* ===================================================================== *)

Section Reader.
Import PyStr MetricsReader.
Context (w : World) (lib : PrometheusClient).

Lemma cache_set_cache (k k' : kind) (n : string) (obj : nat) (r : t) :
  cache k' (set_cache k n obj r) =
  if decide (k = k') then <[n := obj]> (cache k r) else cache k' r.
Proof. by destruct k, k'. Qed.

Lemma registry_set_cache (k : kind) (n : string) (obj : nat) (r : t) :
  registry (set_cache k n obj r) = registry r.
Proof. by destruct k. Qed.

Lemma cache_with_registry (k : kind) (reg : CollectorRegistry) (r : t) :
  cache k (with_registry reg r) = cache k r.
Proof. by destruct k. Qed.

Lemma consistent_init : consistent (init new_registry).
Proof.
  intros k n obj. split.
  - destruct k; simpl; by rewrite lookup_empty.
  - simpl. by rewrite lookup_nil.
Qed.

Lemma consistent_NoDup (r : t) : consistent r -> NoDup (collectors (registry r)).
Proof.
  intros H. apply NoDup_alt. intros i j [k n] Hi Hj.
  apply H in Hi, Hj. congruence.
Qed.

Lemma send_value_eq (k : kind) (obj : nat) (lbls : label_values) (value : Q) (r : t) :
  send_value lib k obj lbls value r =
  match reject_sample lib k value with
  | Some e => (Raise e, r, [])
  | None => (Ret tt, sent obj lbls value r, [])
  end.
Proof. reflexivity. Qed.

(** [_register], case by case. *)
Lemma _register_eq (k : kind) (app : App) (n : string) (value : Q) (r : t) :
  _register lib k app n value r =
  match cache k r !! n with
  | Some obj => send_value lib k obj (labels_of app) value r
  | None =>
      match reject_collector lib (collectors (registry r)) k n with
      | Some e => (Raise e, r, [])
      | None =>
          send_value lib k (length (collectors (registry r))) (labels_of app) value
            (created k n r)
      end
  end.
Proof.
  unfold _register, bind, get, modify, ret, new_metric, raise. simpl.
  destruct (cache k r !! n) as [obj|] eqn:Hc.
  - rewrite Hc. by destruct (send_value lib k obj (labels_of app) value r) as [[[]]].
  - destruct (reject_collector lib (collectors (registry r)) k n); [reflexivity|].
    fold (created k n r).
    assert (Hn : cache k (created k n r) !! n = Some (length (collectors (registry r)))).
    { unfold created. rewrite cache_set_cache, decide_True by done.
      by rewrite lookup_insert_eq. }
    rewrite Hn.
    by destruct (send_value lib k _ (labels_of app) value (created k n r)) as [[[]]].
Qed.

Lemma consistent_sent (obj : nat) (lbls : label_values) (value : Q) (r : t) :
  consistent r -> consistent (sent obj lbls value r).
Proof.
  intros H k n o. unfold sent. rewrite cache_with_registry. apply H.
Qed.

Lemma consistent_created (k : kind) (n : string) (r : t) :
  consistent r -> cache k r !! n = None -> consistent (created k n r).
Proof.
  intros H Hnone k' n' o. unfold created.
  rewrite cache_set_cache, registry_set_cache, cache_with_registry. simpl.
  destruct (decide (k = k')) as [<-|Hk].
  - destruct (decide (n = n')) as [<-|Hn].
    + rewrite lookup_insert_eq. split.
      * intros [= <-]. by rewrite lookup_app_r, Nat.sub_diag.
      * intros Ho. destruct (decide (o < length (collectors (registry r)))%nat) as [Hlt|Hge].
        -- rewrite lookup_app_l in Ho by done. apply H in Ho. congruence.
        -- apply lookup_lt_Some in Ho as Hlen. rewrite length_app in Hlen. simpl in Hlen.
           f_equal. lia.
    + rewrite lookup_insert_ne by done. rewrite (H k n' o). split.
      * intros Ho. by rewrite lookup_app_l by (by eapply lookup_lt_Some).
      * intros Ho. destruct (decide (o < length (collectors (registry r)))%nat) as [Hlt|Hge].
        -- by rewrite lookup_app_l in Ho.
        -- rewrite lookup_app_r in Ho by lia.
           destruct (o - length (collectors (registry r)))%nat; simpl in Ho; [congruence|].
           by rewrite lookup_nil in Ho.
  - rewrite (H k' n' o). split.
    + intros Ho. by rewrite lookup_app_l by (by eapply lookup_lt_Some).
    + intros Ho. destruct (decide (o < length (collectors (registry r)))%nat) as [Hlt|Hge].
      * by rewrite lookup_app_l in Ho.
      * rewrite lookup_app_r in Ho by lia.
        destruct (o - length (collectors (registry r)))%nat; simpl in Ho; [congruence|].
        by rewrite lookup_nil in Ho.
Qed.

Lemma _register_consistent (k : kind) (app : App) (n : string) (value : Q) (r : t) :
  consistent r -> consistent (_register lib k app n value r).1.2.
Proof.
  intros H. rewrite _register_eq.
  destruct (cache k r !! n) as [obj|] eqn:Hc.
  - rewrite send_value_eq. destruct (reject_sample lib k value); simpl; [done|].
    by apply consistent_sent.
  - destruct (reject_collector lib (collectors (registry r)) k n); [done|].
    rewrite send_value_eq. destruct (reject_sample lib k value); simpl.
    + by apply consistent_created.
    + by apply consistent_sent, consistent_created.
Qed.

Lemma register_metric_consistent (app : App) (m : string) (value : Q) (r : t) :
  consistent r -> consistent (register_metric lib app m value r).1.2.
Proof.
  intros H. unfold register_metric, _register_counter, _register_gauge, _register_summary.
  destruct (find m "counter" =? 0); [by apply _register_consistent|].
  destruct (find m "gauge" =? 0); by apply _register_consistent.
Qed.

Lemma for_each_consistent {A} (l : list A) (body : A -> M unit) (r : t) :
  (forall x r0, consistent r0 -> consistent (body x r0).1.2) ->
  consistent r -> consistent (for_each l body r).1.2.
Proof.
  intros Hbody. revert r. induction l as [|x l IH]; intros r H; [done|].
  simpl. unfold bind. specialize (Hbody x r H).
  destruct (body x r) as [[[[]| |] r1] out]; simpl in *; try done.
  specialize (IH r1 Hbody). by destruct (for_each l body r1) as [[? ?] ?].
Qed.

Lemma register_metrics_consistent (app : App) (r : t) :
  consistent r -> consistent (register_metrics w lib app r).1.2.
Proof.
  intros H. unfold register_metrics, load_metrics, bind.
  destruct (metrics_endpoint w (_format_metrics_url app)) as [err| |metrics]; simpl; try done.
  pose proof (for_each_consistent metrics
    (fun '(m, value) => register_metric lib app m value) r) as Hfe.
  destruct (for_each metrics _ r) as [[? ?] ?]. apply Hfe; [|done].
  intros [m value] r0. apply register_metric_consistent.
Qed.

(** What one call of [_register] does from a consistent reader. *)
Lemma _register_effect (k : kind) (app : App) (n : string) (value : Q) (r : t) :
  consistent r ->
  match _register lib k app n value r with
  | (Ret _, r', _) =>
      exists obj,
        collectors (registry r') !! obj = Some (k, n) /\
        samples (registry r') = samples (registry r) ++ [(obj, labels_of app, value)] /\
        (collectors (registry r') = collectors (registry r) \/
         ((k, n) ∉ collectors (registry r)) /\
         collectors (registry r') = collectors (registry r) ++ [(k, n)])
  | (Raise e, r', _) =>
      samples (registry r') = samples (registry r) /\
      (reject_collector lib (collectors (registry r)) k n = Some e /\ r' = r \/
       reject_sample lib k value = Some e)
  | (OutOfFuel, _, _) => False
  end.
Proof.
  intros H. rewrite _register_eq.
  destruct (cache k r !! n) as [obj|] eqn:Hc.
  - rewrite send_value_eq. destruct (reject_sample lib k value) as [e|]; [by auto|].
    exists obj. simpl. split; [by apply H|]. by auto.
  - destruct (reject_collector lib (collectors (registry r)) k n) as [e|]; [by auto|].
    assert (Hnew : (k, n) ∉ collectors (registry r)).
    { intros (obj & Hobj)%list_elem_of_lookup. apply H in Hobj. congruence. }
    rewrite send_value_eq. destruct (reject_sample lib k value) as [e|].
    + unfold created. rewrite registry_set_cache. simpl. by auto.
    + exists (length (collectors (registry r))). unfold sent, created.
      rewrite registry_set_cache. simpl.
      split; [by rewrite lookup_app_r, Nat.sub_diag|]. by auto.
Qed.

Lemma register_metric_dispatch (app : App) (m : string) (value : Q) :
  exists k n, classified m k n /\
    register_metric lib app m value = _register lib k app n value.
Proof.
  unfold register_metric. rewrite !find_zero_startswith.
  destruct (startswith "counter" m) eqn:Hc.
  { exists Counter, (slice_from 8 (sanitize m)). split; [|reflexivity].
    constructor. by apply startswith_has_prefix. }
  assert (~ has_prefix "counter" m) by (rewrite <- startswith_has_prefix; congruence).
  destruct (startswith "gauge" m) eqn:Hg.
  { exists Gauge, (slice_from 6 (sanitize m)). split; [|reflexivity].
    constructor; [done|]. by apply startswith_has_prefix. }
  assert (~ has_prefix "gauge" m) by (rewrite <- startswith_has_prefix; congruence).
  exists Summary, (sanitize m). split; [|reflexivity]. by constructor.
Qed.

(** C3. The kind and the name under which a raw key is registered are
    decided by the prefix of the raw key: ['counter'] gives a counter named
    by the sanitized key without its first 8 characters, else ['gauge']
    gives a gauge named by the sanitized key without its first 6
    characters, else a summary named by the sanitized key. The loop body
    is the registration under that kind and name; when it returns, the
    value was recorded on a metric object of that kind and name, and it
    raises only when the library refuses the metric or the value. *)
Theorem register_metric_classification (app : App) (m : string) (value : Q) (r : t)
    (Hr : consistent r) :
  exists k n, classified m k n /\
    register_metric lib app m value = _register lib k app n value /\
    match register_metric lib app m value r with
    | (Ret _, r', _) =>
        exists obj,
          collectors (registry r') !! obj = Some (k, n) /\
          samples (registry r') = samples (registry r) ++ [(obj, labels_of app, value)]
    | (Raise e, _, _) =>
        reject_collector lib (collectors (registry r)) k n = Some e \/
        reject_sample lib k value = Some e
    | (OutOfFuel, _, _) => False
    end.
Proof.
  destruct (register_metric_dispatch app m value) as (k & n & Hcl & Heq).
  exists k, n. split; [done|]. split; [done|].
  rewrite Heq. pose proof (_register_effect k app n value r Hr) as He.
  destruct (_register lib k app n value r) as [[[[]|e|] r'] out]; [| |done].
  - destruct He as (obj & ? & ? & _). by exists obj.
  - destruct He as [_ [[? _]|?]]; auto.
Qed.

(** C9. Within a build, the registry never holds two metric objects of
    the same kind and name, and the reader's dictionaries stay in step
    with it. A registration for a kind and name whose object exists builds
    nothing and records its value on that object; a registration for a
    kind and name without object builds at most the one object of this
    kind and name. *)
Theorem metric_object_created_once (apps : list App) (k : kind) (app : App)
    (n : string) (value : Q) (r : t) (Hr : consistent r) :
  let final := (for_each apps (register_metrics w lib) (init new_registry)).1.2 in
  let r' := (_register lib k app n value r).1.2 in
  (consistent final /\ NoDup (collectors (registry final))) /\
  (consistent r' /\ NoDup (collectors (registry r'))) /\
  (forall obj, collectors (registry r) !! obj = Some (k, n) ->
     collectors (registry r') = collectors (registry r) /\
     ((_register lib k app n value r).1.1 = Ret tt ->
      samples (registry r') = samples (registry r) ++ [(obj, labels_of app, value)])) /\
  ((k, n) ∉ collectors (registry r) ->
     collectors (registry r') = collectors (registry r) \/
     collectors (registry r') = collectors (registry r) ++ [(k, n)]).
Proof.
  intros final r'.
  assert (Hfinal : consistent final).
  { apply for_each_consistent; [|apply consistent_init].
    intros x r0. apply register_metrics_consistent. }
  assert (Hr' : consistent r') by by apply _register_consistent.
  split; [by auto using consistent_NoDup|]. split; [by auto using consistent_NoDup|].
  subst r'. rewrite _register_eq. split.
  - intros obj Hobj. apply Hr in Hobj as Hc. rewrite Hc, send_value_eq.
    destruct (reject_sample lib k value); simpl; [by split|]. by split.
  - intros Hnew. destruct (cache k r !! n) as [obj|] eqn:Hc.
    { apply Hr in Hc. exfalso. apply Hnew. apply list_elem_of_lookup. by exists obj. }
    destruct (reject_collector lib (collectors (registry r)) k n); [by left|].
    rewrite send_value_eq. unfold created.
    destruct (reject_sample lib k value); simpl; rewrite registry_set_cache; by right.
Qed.

Lemma register_metrics_request_failed (app : App) (err : request_error) (r : t) :
  metrics_endpoint w (_format_metrics_url app) = RequestFailed err ->
  register_metrics w lib app r = (Ret tt, r, ["Catch " +:+ str_of_request_error err]).
Proof. intros H. unfold register_metrics, load_metrics, bind. by rewrite H. Qed.

Lemma register_metrics_undecodable (app : App) (r : t) :
  metrics_endpoint w (_format_metrics_url app) = Undecodable ->
  register_metrics w lib app r = (Raise JSONDecodeError, r, []).
Proof. intros H. unfold register_metrics, load_metrics, bind. by rewrite H. Qed.

(** C8. An instance whose [/metrics] request fails (timeout or
    connection error) is registered without exception and without any
    change of the reader or its registry, one line being printed; the
    build over a list of instances then ends exactly as the build over
    the list without this instance: same outcome, same registry. *)
Theorem unreachable_instance_contributes_nothing (apps1 apps2 : list App) (app : App)
    (err : request_error) (r : t)
    (Hfail : metrics_endpoint w (_format_metrics_url app) = RequestFailed err) :
  register_metrics w lib app r = (Ret tt, r, ["Catch " +:+ str_of_request_error err]) /\
  (for_each (apps1 ++ app :: apps2) (register_metrics w lib) r).1 =
  (for_each (apps1 ++ apps2) (register_metrics w lib) r).1.
Proof.
  split; [by apply register_metrics_request_failed|].
  revert r. induction apps1 as [|a apps1 IH]; intros r; simpl; unfold bind.
  - rewrite (register_metrics_request_failed app err r Hfail).
    by destruct (for_each apps2 (register_metrics w lib) r) as [[? ?] ?].
  - destruct (register_metrics w lib a r) as [[[[]|e|] r1] out]; [|done|done].
    specialize (IH r1).
    destruct (for_each (apps1 ++ app :: apps2) _ r1) as [[o1 s1] out1].
    destruct (for_each (apps1 ++ apps2) _ r1) as [[o2 s2] out2].
    simpl in *. congruence.
Qed.

End Reader.

(* ===================================================================== *)
(** ** Properties of the listing: pagination and host resolution *)
(* ===================================================================== *)

Section Listing.
Import PyStr RancherClient.
Context (w : World).

(** [_extract_spring_boot_apps] returns when every host is known, and
    otherwise raises [KeyError] on the first container of unknown host,
    whatever [filter] would say of it. *)
Lemma _extract_outcome (self : t) (containers : list container) (acc : list App) :
  match _extract_spring_boot_apps self containers acc with
  | Ret _ => forall c, c ∈ containers -> is_Some (hosts_metadata self !! hostId c)
  | Raise e =>
      exists before c after,
        containers = before ++ c :: after /\
        (forall c0, c0 ∈ before -> is_Some (hosts_metadata self !! hostId c0)) /\
        hosts_metadata self !! hostId c = None /\ e = KeyError (hostId c)
  | OutOfFuel => False
  end.
Proof.
  revert acc. induction containers as [|c cs IH]; intros acc; simpl.
  - intros c Hc. by apply elem_of_nil in Hc.
  - unfold _get_spring_boot_app_host.
    destruct (hosts_metadata self !! hostId c) as [host|] eqn:Hh; simpl.
    + assert (Hgoal : forall acc',
        match _extract_spring_boot_apps self cs acc' with
        | Ret _ => forall c0, c0 ∈ c :: cs -> is_Some (hosts_metadata self !! hostId c0)
        | Raise e =>
            exists before c0 after,
              c :: cs = before ++ c0 :: after /\
              (forall c1, c1 ∈ before -> is_Some (hosts_metadata self !! hostId c1)) /\
              hosts_metadata self !! hostId c0 = None /\ e = KeyError (hostId c0)
        | OutOfFuel => False
        end).
      { intros acc'. specialize (IH acc').
        destruct (_extract_spring_boot_apps self cs acc') as [l|e|]; [| |done].
        - intros c0 [->|Hc0]%elem_of_cons; [by rewrite Hh | by apply IH].
        - destruct IH as (before & c0 & after & -> & Hb & Hn & ->).
          exists (c :: before), c0, after. repeat split; auto.
          intros c1 [->|Hc1]%elem_of_cons; [by rewrite Hh | by apply Hb]. }
      destruct (filter self _); apply Hgoal.
    + exists [], c, cs. repeat split; auto.
      intros c0 Hc0. by apply elem_of_nil in Hc0.
Qed.

Lemma _extract_described (self : t) (containers : list container)
    (entries acc : list App) :
  Forall2 (fun c a => describe self c = Some a) containers entries ->
  _extract_spring_boot_apps self containers acc =
  Ret (acc ++ List.filter (filter self) entries).
Proof.
  intros H. revert acc. induction H as [|c a cs es Hc _ IH]; intros acc; simpl.
  - by rewrite app_nil_r.
  - unfold describe in Hc. unfold _get_spring_boot_app_host.
    destruct (hosts_metadata self !! hostId c) as [host|]; [|discriminate].
    injection Hc as <-. simpl. fold (descriptor c host).
    destruct (filter self (descriptor c host)); rewrite IH; [|reflexivity].
    by rewrite <- app_assoc.
Qed.

(** The loop over a chain of pages ending on a null [next]. *)
Lemma while_url_linked (self : t) (pages : list page) (entries : list App)
    (url : option string) (acc : list App) (fuel : nat) :
  linked w url pages None ->
  Forall2 (fun c a => describe self c = Some a) (concat (page_data <$> pages)) entries ->
  (length pages <= fuel)%nat ->
  while_url w fuel self url acc = Ret (acc ++ List.filter (filter self) entries).
Proof.
  revert entries url acc fuel.
  induction pages as [|p ps IH]; intros entries url acc fuel Hl He Hfuel.
  - simpl in Hl, He. subst url. apply Forall2_nil_inv_l in He as ->.
    destruct fuel; simpl; by rewrite app_nil_r.
  - destruct Hl as (u & -> & Hu & Hget & Hl).
    simpl in He. apply Forall2_app_inv_l in He as (e1 & e2 & He1 & He2 & ->).
    destruct fuel as [|fuel]; [simpl in Hfuel; lia|].
    simpl. rewrite Hu. unfold load_url. rewrite Hget. simpl.
    rewrite (_extract_described self _ e1) by done. simpl.
    rewrite (IH e2) by (simpl in Hfuel; auto with lia).
    by rewrite List.filter_app, app_assoc.
Qed.

(** The loop over a chain of pages one of which holds a container of
    unknown host. *)
Lemma while_url_unresolved (self : t) (pages : list page) (last : option string)
    (url : option string) (acc : list App) (fuel : nat) (p : page) (c : container) :
  linked w url pages last ->
  p ∈ pages -> c ∈ page_data p -> hosts_metadata self !! hostId c = None ->
  (length pages <= fuel)%nat ->
  exists c', hosts_metadata self !! hostId c' = None /\
             while_url w fuel self url acc = Raise (KeyError (hostId c')).
Proof.
  intros Hl Hp Hc Hn. revert url acc fuel Hl Hp.
  induction pages as [|q ps IH]; intros url acc fuel Hl Hp Hfuel.
  - by apply elem_of_nil in Hp.
  - destruct Hl as (u & -> & Hu & Hget & Hl).
    destruct fuel as [|fuel]; [simpl in Hfuel; lia|].
    simpl. rewrite Hu. unfold load_url. rewrite Hget. simpl.
    pose proof (_extract_outcome self (page_data q) acc) as Ho.
    destruct (_extract_spring_boot_apps self (page_data q) acc) as [l|e|]; simpl; [| |done].
    + apply elem_of_cons in Hp as [->|Hp].
      * destruct (Ho c Hc) as [h Hh]. congruence.
      * apply IH; auto. simpl in Hfuel. lia.
    + destruct Ho as (_ & c' & _ & _ & _ & Hn' & ->). by exists c'.
Qed.

(** C6. When the pages of the listing are linked by [pagination.next]
    from [{base}containers] and the last one has a null [next], the
    listing reads them all (given enough iterations): it returns the
    descriptors of the entries of all the pages, in the order of the pages
    and of the entries inside a page, restricted to the visible ones. *)
Theorem listing_follows_pagination (self : t) (pages : list page)
    (entries : list App) (fuel : nat)
    (Hlinked : linked w (Some (rancherApiUrl self +:+ "containers")) pages None)
    (Hentries : Forall2 (fun c a => describe self c = Some a)
                  (concat (page_data <$> pages)) entries)
    (Hfuel : (length pages <= fuel)%nat) :
  get_spring_boot_apps w fuel self = Ret (List.filter (filter self) entries).
Proof.
  unfold get_spring_boot_apps. by rewrite (while_url_linked self pages entries).
Qed.

(** The dictionary built by [load_hosts_metadata] has no entry for a key
    exactly when no host of the list has this id. *)
Lemma hosts_foldl_None (hosts : list host_entry) (m : gmap string string) (k : string) :
  foldl (fun m host => <[host_id host := host_hostname host]> m) m hosts !! k = None <->
  m !! k = None /\ forall h, h ∈ hosts -> host_id h <> k.
Proof.
  revert m. induction hosts as [|h hs IH]; intros m; simpl.
  - split; [intros H; split; [done|] | tauto].
    intros h Hh. by apply elem_of_nil in Hh.
  - rewrite IH. rewrite lookup_insert_None. split.
    + intros [[Hm Hne] Hall]. split; [done|].
      intros h' [->|Hh']%elem_of_cons; auto.
    + intros [Hm Hall]. split; [split; [done|]|].
      * apply Hall, list_elem_of_here.
      * intros h' Hh'. apply Hall. by apply list_elem_of_further.
Qed.

End Listing.

(* ===================================================================== *)
(** ** Properties of a build and of the handler *)
(* ===================================================================== *)

Section Build.
Import PyStr.
Context (w : World) (lib : PrometheusClient) (PARSED : Namespace).

Lemma init_decoded (api : string) (filter : option string)
    (hosts : list host_entry) (self_name : string) :
  hosts_endpoint w (api +:+ "hosts") = Decoded hosts ->
  text_endpoint w self_hostname_url = Decoded self_name ->
  exists self,
    RancherClient.init w api filter = Ret self /\
    RancherClient.rancherApiUrl self = api /\
    RancherClient.hosts_metadata self = hosts_dict hosts /\
    RancherClient.self_host self = self_name.
Proof.
  intros Hh Ht. unfold RancherClient.init, RancherClient.load_hosts_metadata,
    RancherClient.load_url, RancherClient.get_self_hostname.
  unfold self_hostname_url in Ht. rewrite Hh, Ht. simpl. eauto.
Qed.

Lemma _extract_first_unresolved (self : RancherClient.t)
    (before after : list container) (c : container) (acc : list App) :
  (forall c0, c0 ∈ before -> is_Some (RancherClient.hosts_metadata self !! hostId c0)) ->
  RancherClient.hosts_metadata self !! hostId c = None ->
  RancherClient._extract_spring_boot_apps self (before ++ c :: after) acc =
  Raise (KeyError (hostId c)).
Proof.
  intros Hb Hn. revert acc. induction before as [|b before IH]; intros acc; simpl.
  - unfold RancherClient._get_spring_boot_app_host. by rewrite Hn.
  - unfold RancherClient._get_spring_boot_app_host.
    destruct (Hb b ltac:(apply list_elem_of_here)) as [h ->]. simpl.
    assert (Hb' : forall c0, c0 ∈ before ->
              is_Some (RancherClient.hosts_metadata self !! hostId c0)).
    { intros c0 Hc0. apply Hb. by apply list_elem_of_further. }
    destruct (RancherClient.filter self _); by apply IH.
Qed.

(** C7. When the listing meets a container whose [hostId] is the id of
    no entry of [{base}hosts], the build ends with the [KeyError] of an
    unknown host id instead of a registry. Inside a page the error is
    raised at the first such container, before [filter] is asked about
    it: nothing is assumed on its state, its image or the self host. *)
Theorem unresolved_host_fails_build (fuel : nat) (hosts : list host_entry)
    (self_name : string) (pages : list page) (last : option string)
    (p : page) (c : container)
    (Hhosts : hosts_endpoint w (rancher PARSED +:+ "hosts") = Decoded hosts)
    (Hself : text_endpoint w self_hostname_url = Decoded self_name)
    (Hlinked : linked w (Some (rancher PARSED +:+ "containers")) pages last)
    (Hp : p ∈ pages) (Hc : c ∈ page_data p)
    (Hunknown : forall h, h ∈ hosts -> host_id h <> hostId c)
    (Hfuel : (length pages <= fuel)%nat) :
  (exists c', (forall h, h ∈ hosts -> host_id h <> hostId c') /\
              generate_registry w lib PARSED fuel = (Raise (KeyError (hostId c')), [])) /\
  (forall self before after acc,
     RancherClient.hosts_metadata self = hosts_dict hosts ->
     (forall c0, c0 ∈ before -> is_Some (hosts_dict hosts !! hostId c0)) ->
     RancherClient._extract_spring_boot_apps self (before ++ c :: after) acc =
     Raise (KeyError (hostId c))).
Proof.
  assert (Hnone : hosts_dict hosts !! hostId c = None).
  { apply hosts_foldl_None. split; [apply lookup_empty | done]. }
  split.
  - destruct (init_decoded (rancher PARSED) (image_filter PARSED) hosts self_name
                Hhosts Hself) as (self & Hinit & Hurl & Hmeta & _).
    destruct (while_url_unresolved w self pages last
                (Some (rancher PARSED +:+ "containers")) [] fuel p c)
      as (c' & Hc' & Hraise); auto; [by rewrite Hmeta|].
    exists c'. split.
    + rewrite Hmeta in Hc'. by apply hosts_foldl_None in Hc' as [_ ?].
    + unfold generate_registry. rewrite Hinit.
      unfold RancherClient.get_spring_boot_apps. by rewrite Hurl, Hraise.
  - intros self before after acc Hmeta Hb.
    apply _extract_first_unresolved; by rewrite Hmeta.
Qed.

(** When the build raises, the handler has written nothing. *)
Lemma do_GET_build_raises (fuel : nat) (names : option (list string))
    (e : exn) (out : list string) :
  generate_registry w lib PARSED fuel = (Raise e, out) ->
  do_GET w lib PARSED fuel names = (Raise e, [], out).
Proof. intros H. unfold do_GET. by rewrite H. Qed.

(** When the serialisation raises, the handler answers 500 and lets the
    exception go on. *)
Lemma do_GET_serialisation_raises (fuel : nat) (reg : CollectorRegistry)
    (e : exn) (out : list string) :
  generate_registry w lib PARSED fuel = (Ret reg, out) ->
  generate_latest lib reg = inl e ->
  do_GET w lib PARSED fuel None =
  (Raise e, [send_error 500 "error generating metric output"], out).
Proof. intros H He. unfold do_GET. by rewrite H, He. Qed.

End Build.

Section ScenarioFacts.
Import PyStr Scenario.

(** The scenario of the specification: one counter, one gauge, one
    summary, each labelled by the instance. *)
Example scenario_first_instance :
  (MetricsReader.register_metrics w lib (app_of c1) (MetricsReader.init new_registry)).1.2.(MetricsReader.registry) =
  {| collectors := [(Counter, "requests_total"); (Gauge, "queue_size"); (Summary, "latency")];
     samples := [(0%nat, ("svc1", None, "10.0.0.1"), 5%Q);
                 (1%nat, ("svc1", None, "10.0.0.1"), 3%Q);
                 (2%nat, ("svc1", None, "10.0.0.1"), (2 # 10)%Q)] |}.
Proof. vm_compute. reflexivity. Qed.

Example split_trailing_comma : split "," "app," = ["app"; ""].
Proof. reflexivity. Qed.

(** C1, on the code. The third instance answers with a body that is not
    JSON: [load_metrics] lets the decoding error out, [register_metrics]
    raises it, and the build of the whole registry ends with it, although
    the first instance was read and the timeout of the second one was
    caught. *)
Theorem malformed_metrics_body_aborts_build :
  metrics_endpoint w (MetricsReader._format_metrics_url (app_of c3)) = Undecodable /\
  (forall r, MetricsReader.register_metrics w lib (app_of c3) r = (Raise JSONDecodeError, r, [])) /\
  RancherClient.get_spring_boot_apps w 3 (client None) =
    Ret (app_of <$> [c1; c2; c3; c4; c5; c6]) /\
  generate_registry w lib PARSED 3 = (Raise JSONDecodeError, ["Catch timed out"]).
Proof.
  split; [reflexivity|]. split; [|split].
  - intros r. by apply register_metrics_undecodable.
  - vm_compute. reflexivity.
  - vm_compute. reflexivity.
Qed.

(** C2, on the code. The orchestrator cannot be reached: the build raises
    inside [do_GET] before the [try], and the handler ends with the
    exception without having written a status line, an error or a body. *)
Theorem build_failure_sends_no_response (fuel : nat) (names : option (list string)) :
  generate_registry w_down lib PARSED fuel =
    (Raise (RequestError (ConnectionError "connection refused")), []) /\
  do_GET w_down lib PARSED fuel names =
    (Raise (RequestError (ConnectionError "connection refused")), [], []).
Proof. split; [reflexivity | by apply do_GET_build_raises]. Qed.

(** The classification theorem on the first key of the scenario. *)
Lemma register_metric_classification_witness :
  consistent (MetricsReader.init new_registry) /\
  exists k n, classified "counter.requests.total" k n /\
    MetricsReader.register_metric lib (app_of c1) "counter.requests.total" 5%Q =
    MetricsReader._register lib k (app_of c1) n 5%Q /\
    match MetricsReader.register_metric lib (app_of c1) "counter.requests.total" 5%Q
            (MetricsReader.init new_registry) with
    | (Ret _, r', _) =>
        exists obj,
          collectors (MetricsReader.registry r') !! obj = Some (k, n) /\
          samples (MetricsReader.registry r') =
          samples (MetricsReader.registry (MetricsReader.init new_registry)) ++
          [(obj, MetricsReader.labels_of (app_of c1), 5%Q)]
    | (Raise e, _, _) =>
        reject_collector lib
          (collectors (MetricsReader.registry (MetricsReader.init new_registry))) k n = Some e \/
        reject_sample lib k 5%Q = Some e
    | (OutOfFuel, _, _) => False
    end.
Proof.
  split; [apply consistent_init|].
  apply (register_metric_classification lib (app_of c1) "counter.requests.total" 5%Q
           (MetricsReader.init new_registry) consistent_init).
Defined.

Lemma consistent_reader1 : consistent reader1.
Proof. apply _register_consistent, consistent_init. Qed.

(** A second registration of the counter [requests_total], for another
    instance, reuses the object built for the first one. *)
Lemma metric_object_created_once_witness :
  consistent reader1 /\
  collectors (MetricsReader.registry reader1) !! 0%nat = Some (Counter, "requests_total") /\
  collectors (MetricsReader.registry
    (MetricsReader._register lib Counter (app_of c4) "requests_total" 7%Q reader1).1.2) =
  collectors (MetricsReader.registry reader1).
Proof.
  split; [apply consistent_reader1|]. split; [reflexivity|].
  destruct (metric_object_created_once w lib [app_of c1; app_of c2] Counter (app_of c4)
              "requests_total" 7%Q reader1 consistent_reader1) as (_ & _ & Hreuse & _).
  apply (Hreuse 0%nat). reflexivity.
Defined.

(** The timeout of the second instance between two healthy ones. *)
Lemma unreachable_instance_contributes_nothing_witness :
  metrics_endpoint w (MetricsReader._format_metrics_url (app_of c2)) =
    RequestFailed (Timeout "timed out") /\
  MetricsReader.register_metrics w lib (app_of c2) (MetricsReader.init new_registry) =
    (Ret tt, MetricsReader.init new_registry, ["Catch timed out"]) /\
  (MetricsReader.for_each ([app_of c1] ++ app_of c2 :: [app_of c4])
     (MetricsReader.register_metrics w lib) (MetricsReader.init new_registry)).1 =
  (MetricsReader.for_each ([app_of c1] ++ [app_of c4])
     (MetricsReader.register_metrics w lib) (MetricsReader.init new_registry)).1.
Proof.
  split; [reflexivity|].
  apply (unreachable_instance_contributes_nothing w lib [app_of c1] [app_of c4]
           (app_of c2) (Timeout "timed out") (MetricsReader.init new_registry)).
  reflexivity.
Defined.

(** The filter string ['app,'] and an instance whose image does not
    contain ['app']. *)
Lemma empty_pattern_accepts_all_witness :
  has_empty_field "app," /\
  RancherClient.init w "http://rancher/v1/" (Some "app,") = Ret (client (Some ["app"; ""])) /\
  find (app_image other) "app" = -1 /\
  RancherClient.filterPattern (client (Some ["app"; ""])) = Some (split "," "app,") /\
  "" ∈ split "," "app," /\
  find (app_image other) "" = 0 /\
  RancherClient.filter (client (Some ["app"; ""])) other = true.
Proof.
  assert (Hf : has_empty_field "app,") by (right; left; by exists "app").
  split; [exact Hf|]. split; [reflexivity|]. split; [reflexivity|].
  apply (empty_pattern_accepts_all w "http://rancher/v1/" "app,"
           (client (Some ["app"; ""])) other Hf); [reflexivity|reflexivity|discriminate].
Defined.

Lemma linked_scenario :
  linked w (Some "http://rancher/v1/containers") [page1; page2; page3] None.
Proof.
  exists "http://rancher/v1/containers". repeat split.
  exists "http://rancher/v1/containers?marker=2". repeat split.
  exists "http://rancher/v1/containers?marker=4". repeat split.
Qed.

(** Three linked pages of two visible instances: six instances, in the
    order of the pages. *)
Lemma listing_follows_pagination_witness :
  linked w (Some "http://rancher/v1/containers") [page1; page2; page3] None /\
  RancherClient.get_spring_boot_apps w 3 (client None) =
    Ret [app_of c1; app_of c2; app_of c3; app_of c4; app_of c5; app_of c6].
Proof.
  split; [exact linked_scenario|].
  rewrite (listing_follows_pagination w (client None) [page1; page2; page3]
             (app_of <$> [c1; c2; c3; c4; c5; c6]) 3 linked_scenario).
  - reflexivity.
  - repeat constructor.
  - simpl. lia.
Defined.

Lemma hosts_do_not_list_h9 (h : host_entry) : h ∈ hosts -> host_id h <> "h9".
Proof.
  intros Hh. repeat (apply elem_of_cons in Hh as [->|Hh]; [discriminate|]).
  by apply elem_of_nil in Hh.
Qed.

(** A stopped container of an unlisted host ends the build. *)
Lemma unresolved_host_fails_build_witness :
  orphan ∈ page_data orphan_page /\ state orphan = "stopped" /\
  (exists c', (forall h, h ∈ hosts -> host_id h <> hostId c') /\
     generate_registry w_orphan lib PARSED 1 = (Raise (KeyError (hostId c')), [])) /\
  RancherClient._extract_spring_boot_apps (client None) ([c1] ++ orphan :: []) [] =
    Raise (KeyError "h9").
Proof.
  assert (Hin : orphan ∈ page_data orphan_page)
    by apply list_elem_of_further, list_elem_of_here.
  split; [exact Hin|]. split; [reflexivity|].
  destruct (unresolved_host_fails_build w_orphan lib PARSED 1 hosts "node-a"
              [orphan_page] None orphan_page orphan) as [Hbuild Hpage].
  - reflexivity.
  - reflexivity.
  - exists "http://rancher/v1/containers". repeat split.
  - apply list_elem_of_here.
  - exact Hin.
  - exact hosts_do_not_list_h9.
  - simpl. lia.
  - split; [exact Hbuild|]. apply Hpage; [reflexivity|].
    intros c0 Hc0. apply list_elem_of_singleton in Hc0 as ->. by eexists.
Defined.

End ScenarioFacts.

(* ===================================================================== *)
(** ** More on the listing: loops, failing pages, visibility *)
(* ===================================================================== *)

Section ListingLoop.
Import PyStr RancherClient.
Context (w : World).

(** Reading a chain of pages uses one iteration per page and goes on from
    the URL the last page gives. *)
Lemma while_url_run (self : t) (pages : list page) (entries : list App)
    (url last : option string) (acc : list App) (fuel : nat) :
  linked w url pages last ->
  Forall2 (fun c a => describe self c = Some a) (concat (page_data <$> pages)) entries ->
  (length pages <= fuel)%nat ->
  while_url w fuel self url acc =
  while_url w (fuel - length pages) self last (acc ++ List.filter (filter self) entries).
Proof.
  revert entries url acc fuel.
  induction pages as [|p ps IH]; intros entries url acc fuel Hl He Hfuel.
  - simpl in Hl, He. subst url. apply Forall2_nil_inv_l in He as ->.
    simpl. by rewrite app_nil_r, Nat.sub_0_r.
  - destruct Hl as (u & -> & Hu & Hget & Hl).
    simpl in He. apply Forall2_app_inv_l in He as (e1 & e2 & He1 & He2 & ->).
    destruct fuel as [|fuel]; [simpl in Hfuel; lia|].
    simpl. rewrite Hu. unfold load_url. rewrite Hget. simpl.
    rewrite (_extract_described self _ e1) by done. simpl.
    rewrite (IH e2) by (simpl in Hfuel; auto with lia).
    by rewrite List.filter_app, app_assoc.
Qed.

(** With fewer iterations than pages the loop is still running. *)
Lemma while_url_starved (self : t) (pages : list page) (entries : list App)
    (url last : option string) (acc : list App) (fuel : nat) :
  linked w url pages last ->
  Forall2 (fun c a => describe self c = Some a) (concat (page_data <$> pages)) entries ->
  (fuel < length pages)%nat ->
  while_url w fuel self url acc = OutOfFuel.
Proof.
  revert entries url acc fuel.
  induction pages as [|p ps IH]; intros entries url acc fuel Hl He Hfuel.
  - simpl in Hfuel. lia.
  - destruct Hl as (u & -> & Hu & Hget & Hl).
    simpl in He. apply Forall2_app_inv_l in He as (e1 & e2 & He1 & He2 & ->).
    destruct fuel as [|fuel]; simpl; rewrite Hu; [reflexivity|].
    unfold load_url. rewrite Hget. simpl.
    rewrite (_extract_described self _ e1) by done. simpl.
    apply (IH e2); auto. simpl in Hfuel. lia.
Qed.

Lemma while_url_cycle (self : t) (cycle : list page) (entries : list App)
    (u : string) (fuel : nat) (acc : list App) :
  cycle <> [] ->
  linked w (Some u) cycle (Some u) ->
  Forall2 (fun c a => describe self c = Some a) (concat (page_data <$> cycle)) entries ->
  while_url w fuel self (Some u) acc = OutOfFuel.
Proof.
  intros Hne Hl He. revert acc.
  induction fuel as [fuel IH] using lt_wf_ind. intros acc.
  destruct (decide (fuel < length cycle)%nat) as [Hlt|Hge].
  - by apply (while_url_starved self cycle entries (Some u) (Some u)).
  - rewrite (while_url_run self cycle entries (Some u) (Some u)) by (auto; lia).
    apply IH. destruct cycle; [done|]. simpl in *. lia.
Qed.

(** X5. The listing has no protection against a chain of pages that comes
    back to one of its URLs: whatever the number of iterations allowed, the
    loop is still running. *)
Theorem listing_cycle_never_returns (self : t) (before cycle : list page)
    (entries1 entries2 : list App) (u : string) (fuel : nat)
    (Hbefore : linked w (Some (rancherApiUrl self +:+ "containers")) before (Some u))
    (Hcycle : linked w (Some u) cycle (Some u))
    (Hne : cycle <> [])
    (He1 : Forall2 (fun c a => describe self c = Some a)
             (concat (page_data <$> before)) entries1)
    (He2 : Forall2 (fun c a => describe self c = Some a)
             (concat (page_data <$> cycle)) entries2) :
  get_spring_boot_apps w fuel self = OutOfFuel.
Proof.
  unfold get_spring_boot_apps.
  destruct (decide (fuel < length before)%nat) as [Hlt|Hge].
  - by apply (while_url_starved self before entries1 _ (Some u)).
  - rewrite (while_url_run self before entries1 _ (Some u)) by (auto; lia).
    by apply (while_url_cycle self cycle entries2).
Qed.

(** X6. A [pagination.next] that is the empty string ends the listing as a
    null one does: the instances gathered so far are returned. *)
Theorem listing_stops_on_empty_next (self : t) (pages : list page)
    (entries : list App) (fuel : nat)
    (Hlinked : linked w (Some (rancherApiUrl self +:+ "containers")) pages (Some ""))
    (Hentries : Forall2 (fun c a => describe self c = Some a)
                  (concat (page_data <$> pages)) entries)
    (Hfuel : (length pages <= fuel)%nat) :
  get_spring_boot_apps w fuel self = Ret (List.filter (filter self) entries).
Proof.
  unfold get_spring_boot_apps.
  rewrite (while_url_run self pages entries _ (Some "")) by auto.
  by destruct (fuel - length pages)%nat.
Qed.

(** X7. When a page of the chain cannot be fetched or decoded, the listing
    raises the error of that page; the instances of the pages read before
    are not returned. *)
Theorem listing_page_failure (self : t) (pages : list page) (entries : list App)
    (u : string) (fuel : nat)
    (Hlinked : linked w (Some (rancherApiUrl self +:+ "containers")) pages (Some u))
    (Hu : truthy u = true)
    (Hentries : Forall2 (fun c a => describe self c = Some a)
                  (concat (page_data <$> pages)) entries)
    (Hfuel : (length pages < fuel)%nat) :
  match containers_endpoint w u with
  | RequestFailed e => get_spring_boot_apps w fuel self = Raise (RequestError e)
  | Undecodable => get_spring_boot_apps w fuel self = Raise JSONDecodeError
  | Decoded _ => True
  end.
Proof.
  unfold get_spring_boot_apps.
  rewrite (while_url_run self pages entries _ (Some u)) by (auto; lia).
  destruct (fuel - length pages)%nat as [|n] eqn:Hn; [lia|].
  simpl. rewrite Hu. unfold load_url.
  by destruct (containers_endpoint w u).
Qed.

Lemma filter_true_inv (self : t) (data : App) :
  filter self data = true ->
  app_host data = self_host self /\ app_state data <> "stopped".
Proof.
  unfold filter.
  destruct (String.eqb_spec (app_host data) (self_host self)); [|discriminate].
  destruct (String.eqb_spec (app_state data) "stopped"); [discriminate|]. done.
Qed.

Lemma _extract_Forall (self : t) (containers : list container) (acc apps : list App) :
  _extract_spring_boot_apps self containers acc = Ret apps ->
  Forall (fun a => filter self a = true) acc ->
  Forall (fun a => filter self a = true) apps.
Proof.
  revert acc. induction containers as [|c cs IH]; intros acc H Hacc; simpl in H.
  - by injection H as <-.
  - destruct (_get_spring_boot_app_host self c) as [host| |]; simpl in H; try discriminate.
    destruct (filter self _) eqn:Hf.
    + apply (IH _ H). apply Forall_app. split; [done|]. by constructor.
    + by apply (IH _ H).
Qed.

Lemma while_url_Forall (self : t) (fuel : nat) (url : option string)
    (acc apps : list App) :
  while_url w fuel self url acc = Ret apps ->
  Forall (fun a => filter self a = true) acc ->
  Forall (fun a => filter self a = true) apps.
Proof.
  revert url acc. induction fuel as [|fuel IH]; intros url acc H Hacc;
    destruct url as [u|]; simpl in H; try (by injection H as <-);
    destruct (truthy u); try discriminate; try (by injection H as <-).
  destruct (load_url w containers_endpoint u) as [parsed| |]; simpl in H; try discriminate.
  destruct (_extract_spring_boot_apps self (page_data parsed) acc) as [acc'| |] eqn:He;
    simpl in H; try discriminate.
  apply (IH _ _ H). by apply (_extract_Forall self (page_data parsed) acc).
Qed.

(** X4. Whatever the orchestrator answers, every instance the listing
    returns was accepted by [filter]: it is on the self host and it is not
    stopped. *)
Theorem listed_apps_are_visible (self : t) (fuel : nat) (apps : list App) (a : App)
    (Hlist : get_spring_boot_apps w fuel self = Ret apps)
    (Ha : a ∈ apps) :
  filter self a = true /\ app_host a = self_host self /\ app_state a <> "stopped".
Proof.
  assert (Hall : Forall (fun a => filter self a = true) apps).
  { by apply (while_url_Forall self fuel _ [] apps Hlist). }
  rewrite Forall_forall in Hall. pose proof (Hall a Ha) as Hf.
  split; [done|]. by apply filter_true_inv.
Qed.

End ListingLoop.

(* ===================================================================== *)
(** ** More on the client: hosts dictionary, patterns, single pattern *)
(* ===================================================================== *)

Section ClientSetup.
Import PyStr RancherClient.
Context (w : World).

Lemma hosts_foldl_Some (hosts : list host_entry) (m : gmap string string)
    (k v : string) :
  foldl (fun m host => <[host_id host := host_hostname host]> m) m hosts !! k = Some v <->
  (exists before h after,
     hosts = before ++ h :: after /\ host_id h = k /\ host_hostname h = v /\
     forall h', h' ∈ after -> host_id h' <> k) \/
  (m !! k = Some v /\ forall h, h ∈ hosts -> host_id h <> k).
Proof.
  revert m. induction hosts as [|h hs IH]; intros m; simpl.
  - split.
    + intros H. right. split; [done|]. intros h Hh. by apply elem_of_nil in Hh.
    + intros [(before & h & after & Heq & _)|[H _]]; [by destruct before | done].
  - rewrite IH. split.
    + intros [(before & h' & after & -> & Hk & Hv & Hlast)|[Hm Hnone]].
      * left. exists (h :: before), h', after. by repeat split.
      * destruct (decide (host_id h = k)) as [Hk|Hk].
        -- rewrite Hk, lookup_insert_eq in Hm. injection Hm as Hv.
           left. exists [], h, hs. by repeat split.
        -- rewrite lookup_insert_ne in Hm by done. right. split; [done|].
           intros h' [->|Hh']%elem_of_cons; auto.
    + intros [(before & h' & after & Heq & Hk & Hv & Hlast)|[Hm Hnone]].
      * destruct before as [|b before]; simpl in Heq.
        -- injection Heq as <- <-. right. split; [|done].
           by rewrite Hk, <- Hv, lookup_insert_eq.
        -- injection Heq as <- ->. left. exists before, h', after. by repeat split.
      * right. split.
        -- rewrite lookup_insert_ne; [done|]. apply Hnone, list_elem_of_here.
        -- intros h' Hh'. apply Hnone. by apply list_elem_of_further.
Qed.

(** X1. The dictionary built by [load_hosts_metadata] has a key for each
    host id of the answer and for nothing else, and when several entries
    carry the same id the hostname of the last one is kept. *)
Theorem load_hosts_metadata_last_wins (api : string) (hosts : list host_entry)
    (Hhosts : hosts_endpoint w (api +:+ "hosts") = Decoded hosts) :
  exists m, load_hosts_metadata w api = Ret m /\
    (forall k, m !! k = None <-> forall h, h ∈ hosts -> host_id h <> k) /\
    (forall k v, m !! k = Some v <->
       exists before h after,
         hosts = before ++ h :: after /\ host_id h = k /\ host_hostname h = v /\
         forall h', h' ∈ after -> host_id h' <> k).
Proof.
  unfold load_hosts_metadata, load_url. rewrite Hhosts. simpl.
  eexists. split; [reflexivity|]. split.
  - intros k. rewrite hosts_foldl_None. rewrite lookup_empty. tauto.
  - intros k v. rewrite hosts_foldl_Some. rewrite lookup_empty. split.
    + intros [H|[? _]]; [done|discriminate].
    + by left.
Qed.

Lemma init_inv (api : string) (f : option string) (self : t) :
  init w api f = Ret self ->
  rancherApiUrl self = api /\
  filterPattern self =
    match f with
    | Some f0 => if truthy f0 then Some (split "," f0) else None
    | None => None
    end.
Proof.
  unfold init. intros H.
  destruct (load_hosts_metadata w api); simpl in H; try discriminate.
  destruct (get_self_hostname w); simpl in H; try discriminate.
  by injection H as <-.
Qed.

(** X2. A client that was built has no pattern exactly when the option was
    not given or was the empty string; otherwise its patterns are the
    fields of the option, and this list is never empty: the branch of
    [filter] for an empty list of patterns is never taken. *)
Theorem init_filter_pattern (api : string) (f : option string) (self : t)
    (Hinit : init w api f = Ret self) :
  rancherApiUrl self = api /\
  (filterPattern self = None <-> f = None \/ f = Some "") /\
  (forall f0, f = Some f0 -> f0 <> "" -> filterPattern self = Some (split "," f0)) /\
  filterPattern self <> Some [].
Proof.
  destruct (init_inv api f self Hinit) as [Hurl Hpat].
  split; [done|]. rewrite Hpat. destruct f as [[|c f0]|]; simpl.
  - split; [split; auto|]. split; [by intros ? [= <-]|done].
  - split; [split; [done | by intros [?|?]]|].
    split; [by intros ? [= <-]|]. intros [= H].
    exact (split_nonempty "," (String c f0) H).
  - split; [split; auto|]. split; [by intros ? [=]|done].
Qed.

Lemma split_no_sep (sep : ascii) (s : string) :
  (forall a b, s <> a +:+ String sep b) -> split sep s = [s].
Proof.
  induction s as [|c s IH]; intros H; [reflexivity|]. simpl.
  destruct (decide (c = sep)) as [->|Hc].
  - by destruct (H "" s).
  - rewrite IH; [reflexivity|].
    intros a b ->. by apply (H (String c a) b).
Qed.

(** X17. With an image filter made of one non-empty word without comma,
    an instance is accepted exactly when it is on the self host, is not
    stopped, and its image contains that word. *)
Theorem single_pattern_filter (api f : string) (self : t) (data : App)
    (Hinit : init w api (Some f) = Ret self)
    (Hf : f <> "")
    (Hcomma : ~ is_substring "," f) :
  filter self data = true <->
  app_host data = self_host self /\ app_state data <> "stopped" /\
  is_substring f (app_image data).
Proof.
  destruct (init_inv api (Some f) self Hinit) as [_ Hpat].
  assert (Ht : truthy f = true) by by destruct f.
  rewrite Ht in Hpat. rewrite split_no_sep in Hpat.
  2: { intros a b ->. apply Hcomma. by exists a, b. }
  unfold filter. rewrite Hpat.
  destruct (String.eqb_spec (app_host data) (self_host self)); simpl;
    [|split; [discriminate | tauto]].
  destruct (String.eqb_spec (app_state data) "stopped");
    [split; [discriminate | tauto]|].
  rewrite orb_false_r, negb_true_iff, Z.eqb_neq, find_is_substring. tauto.
Qed.

End ClientSetup.

Section MetricsUrl.
Import PyStr MetricsReader.

Lemma length_app_str (a b : string) :
  String.length (a +:+ b) = (String.length a + String.length b)%nat.
Proof. induction a as [|c a IH]; [reflexivity|]. rewrite app_cons. simpl. by rewrite IH. Qed.

Lemma app_inv_tail_str (a b s : string) : a +:+ s = b +:+ s -> a = b.
Proof.
  revert b. induction a as [|c a IH]; intros [|d b] H.
  - reflexivity.
  - apply (f_equal String.length) in H. rewrite !length_app_str in H. simpl in H. lia.
  - apply (f_equal String.length) in H. rewrite !length_app_str in H. simpl in H. lia.
  - rewrite !app_cons in H. injection H as -> H. f_equal. by apply IH.
Qed.

(** X18. Two instances are polled at the same URL exactly when they have
    the same IP address; name, image, stack and host play no role. *)
Theorem format_metrics_url_same_ip (a1 a2 : App) :
  _format_metrics_url a1 = _format_metrics_url a2 <-> app_ip a1 = app_ip a2.
Proof.
  unfold _format_metrics_url. split; [|by intros ->].
  intros H.
  change ("http://" +:+ ?x) with
    (String "h" (String "t" (String "t" (String "p" (String ":" (String "/" (String "/" x)))))))
    in H.
  injection H as H. by apply app_inv_tail_str in H.
Qed.

End MetricsUrl.

(* ===================================================================== *)
(** ** More on the reader: what a registration leaves in the registry *)
(* ===================================================================== *)

Section Registrations.
Import PyStr MetricsReader.
Context (w : World) (lib : PrometheusClient).

Lemma for_each_invariant {A} (P : t -> Prop) (l : list A) (body : A -> M unit) (r : t) :
  (forall x r0, P r0 -> P (body x r0).1.2) ->
  P r -> P (for_each l body r).1.2.
Proof.
  intros Hbody. revert r. induction l as [|x l IH]; intros r H; [done|].
  simpl. unfold bind. specialize (Hbody x r H).
  destruct (body x r) as [[[[]| |] r1] out]; simpl in *; try done.
  specialize (IH r1 Hbody). by destruct (for_each l body r1) as [[? ?] ?].
Qed.







Lemma _register_returns (k : kind) (app : App) (n : string) (value : Q)
    (r r' : t) (out : list string) :
  _register lib k app n value r = (Ret tt, r', out) ->
  out = [] /\
  exists obj, samples (registry r') = samples (registry r) ++ [(obj, labels_of app, value)].
Proof.
  rewrite _register_eq.
  destruct (cache k r !! n) as [obj|].
  - rewrite send_value_eq. destruct (reject_sample lib k value); [discriminate|].
    intros [= <- <-]. split; [done|]. by exists obj.
  - destruct (reject_collector lib (collectors (registry r)) k n); [discriminate|].
    rewrite send_value_eq. destruct (reject_sample lib k value); [discriminate|].
    intros [= <- <-]. split; [done|]. eexists. unfold sent, created. simpl.
    by rewrite registry_set_cache.
Qed.

Lemma register_metric_returns (app : App) (m : string) (value : Q)
    (r r' : t) (out : list string) :
  register_metric lib app m value r = (Ret tt, r', out) ->
  out = [] /\
  exists obj, samples (registry r') = samples (registry r) ++ [(obj, labels_of app, value)].
Proof.
  unfold register_metric, _register_counter, _register_gauge, _register_summary.
  destruct (find m "counter" =? 0); [apply _register_returns|].
  destruct (find m "gauge" =? 0); apply _register_returns.
Qed.

Lemma for_each_metric_returns (app : App) (metrics : snapshot)
    (r r' : t) (out : list string) :
  for_each metrics (fun '(m, value) => register_metric lib app m value) r = (Ret tt, r', out) ->
  out = [] /\
  exists new,
    samples (registry r') = samples (registry r) ++ new /\
    sample_payload <$> new = (fun kv => (labels_of app, kv.2)) <$> metrics.
Proof.
  revert r out. induction metrics as [|[m value] metrics IH]; intros r out; simpl.
  - intros [= <- <-]. split; [done|]. exists []. by rewrite app_nil_r.
  - unfold bind.
    destruct (register_metric lib app m value r) as [[[[]| |] r1] o1] eqn:H1; try discriminate.
    destruct (for_each metrics _ r1) as [[o r2] o2] eqn:H2.
    intros [= -> <- <-].
    apply register_metric_returns in H1 as [-> (obj & Hs1)].
    apply IH in H2 as [-> (new & Hs2 & Hpay)].
    split; [done|]. exists ((obj, labels_of app, value) :: new).
    split; [by rewrite Hs2, Hs1, <- app_assoc|]. by rewrite !fmap_cons, Hpay.
Qed.

(** X9. When an instance serves a snapshot and its registration returns,
    the registry has received exactly one value per key of the snapshot, in
    the order of the snapshot, each labelled with the name, the stack name
    and the IP address of the instance; nothing was printed. *)
Theorem register_metrics_records_snapshot (app : App) (metrics : snapshot)
    (r r' : t) (out : list string)
    (Hserved : metrics_endpoint w (_format_metrics_url app) = Decoded metrics)
    (Hret : register_metrics w lib app r = (Ret tt, r', out)) :
  out = [] /\
  exists new,
    samples (registry r') = samples (registry r) ++ new /\
    sample_payload <$> new =
      (fun kv => ((app_name app, app_stack_name app, app_ip app), kv.2)) <$> metrics.
Proof.
  unfold register_metrics, load_metrics, bind in Hret. rewrite Hserved in Hret.
  simpl in Hret.
  destruct (for_each metrics _ r) as [[o r2] o2] eqn:Hfe.
  injection Hret as -> <- <-.
  by apply for_each_metric_returns in Hfe.
Qed.

Lemma anchored_sent (obj : nat) (lbls : label_values) (value : Q) (r : t) :
  anchored (registry r) -> is_Some (collectors (registry r) !! obj) ->
  anchored (registry (sent obj lbls value r)).
Proof.
  intros Ha Hobj o l v. unfold sent. simpl.
  intros [Hin|Hin%list_elem_of_singleton]%elem_of_app; [by eapply Ha|].
  by injection Hin as -> _ _.
Qed.

Lemma anchored_created (k : kind) (n : string) (r : t) :
  anchored (registry r) -> anchored (registry (created k n r)).
Proof.
  intros Ha o l v. unfold created. rewrite registry_set_cache. simpl.
  intros Hin. destruct (Ha o l v Hin) as [x Hx].
  exists x. by apply lookup_app_l_Some.
Qed.

Lemma _register_anchored (k : kind) (app : App) (n : string) (value : Q) (r : t) :
  consistent r /\ anchored (registry r) ->
  consistent (_register lib k app n value r).1.2 /\
  anchored (registry (_register lib k app n value r).1.2).
Proof.
  intros [Hc Ha]. split; [by apply _register_consistent|].
  rewrite _register_eq.
  destruct (cache k r !! n) as [obj|] eqn:Hcache.
  - rewrite send_value_eq. destruct (reject_sample lib k value); simpl; [done|].
    apply anchored_sent; [done|]. apply Hc in Hcache. by eexists.
  - destruct (reject_collector lib (collectors (registry r)) k n); [done|].
    rewrite send_value_eq. destruct (reject_sample lib k value); simpl.
    + by apply anchored_created.
    + apply anchored_sent; [by apply anchored_created|].
      unfold created. rewrite registry_set_cache. simpl.
      exists (k, n). by rewrite lookup_app_r, Nat.sub_diag.
Qed.

Lemma register_metrics_anchored (app : App) (r : t) :
  consistent r /\ anchored (registry r) ->
  consistent (register_metrics w lib app r).1.2 /\
  anchored (registry (register_metrics w lib app r).1.2).
Proof.
  intros H. unfold register_metrics, load_metrics, bind.
  destruct (metrics_endpoint w (_format_metrics_url app)) as [err| |metrics]; simpl; try done.
  pose proof (for_each_invariant (fun r' => consistent r' /\ anchored (registry r')) metrics
    (fun '(m, value) => register_metric lib app m value) r) as Hfe.
  destruct (for_each metrics _ r) as [[? ?] ?]. apply Hfe; [|done].
  intros [m value] r0 H0.
  unfold register_metric, _register_counter, _register_gauge, _register_summary.
  destruct (find m "counter" =? 0); [by apply _register_anchored|].
  destruct (find m "gauge" =? 0); by apply _register_anchored.
Qed.

(** X10. In the registry of a build, at any point and however the loop
    over the instances ends, every recorded value belongs to a metric
    object that the registry holds: the reader never sends a value to an
    object it did not register. *)
Theorem build_samples_anchored (apps : list App) :
  anchored (registry (for_each apps (register_metrics w lib) (init new_registry)).1.2).
Proof.
  apply (for_each_invariant (fun r' => consistent r' /\ anchored (registry r'))).
  - intros app r0. apply register_metrics_anchored.
  - split; [apply consistent_init|]. intros o l v Hin. by apply elem_of_nil in Hin.
Qed.

End Registrations.

(* ===================================================================== *)
(** ** More on metric names: unchecked separator, keys sharing a name *)
(* ===================================================================== *)

Section KeyNames.
Import PyStr MetricsReader.
Context (lib : PrometheusClient).

(** X11. The character that follows the prefix is dropped without being
    looked at: a key made of ['counter'] (or ['gauge']), any character and
    a rest is registered under the sanitized rest, and the bare keys
    ['counter'] and ['gauge'] are registered under the empty name. *)
Theorem prefix_slice_ignores_separator (app : App) (c : ascii) (rest : string)
    (value : Q) :
  register_metric lib app ("counter" +:+ String c rest) value =
    _register lib Counter app (sanitize rest) value /\
  register_metric lib app ("gauge" +:+ String c rest) value =
    _register lib Gauge app (sanitize rest) value /\
  register_metric lib app "counter" value = _register lib Counter app "" value /\
  register_metric lib app "gauge" value = _register lib Gauge app "" value.
Proof.
  split; [|split; [|split; reflexivity]].
  - unfold register_metric. rewrite find_zero_startswith, startswith_app. reflexivity.
  - unfold register_metric. rewrite !find_zero_startswith.
    rewrite (startswith_app "gauge" (String c rest)). reflexivity.
Qed.

Lemma classified_functional (m : string) (k k' : kind) (n n' : string) :
  classified m k n -> classified m k' n' -> k = k' /\ n = n'.
Proof. intros H H'. destruct H; destruct H'; done. Qed.

(** X12. Two raw keys that are classified to the same kind and name (as
    ['a.b'] and ['a-b'] are) feed one metric object: when both
    registrations return, the second one has built nothing and the two
    values were sent to the same object, one after the other. *)
Theorem same_name_shares_object (a1 a2 : App) (m1 m2 : string) (v1 v2 : Q)
    (k : kind) (n : string) (r r1 r2 : t) (o1 o2 : list string)
    (Hr : consistent r)
    (Hm1 : classified m1 k n) (Hm2 : classified m2 k n)
    (H1 : register_metric lib a1 m1 v1 r = (Ret tt, r1, o1))
    (H2 : register_metric lib a2 m2 v2 r1 = (Ret tt, r2, o2)) :
  exists obj,
    collectors (registry r1) !! obj = Some (k, n) /\
    collectors (registry r2) = collectors (registry r1) /\
    samples (registry r2) =
      samples (registry r) ++ [(obj, labels_of a1, v1); (obj, labels_of a2, v2)].
Proof.
  destruct (register_metric_dispatch lib a1 m1 v1) as (k1 & n1 & Hc1 & E1).
  destruct (register_metric_dispatch lib a2 m2 v2) as (k2 & n2 & Hc2 & E2).
  destruct (classified_functional _ _ _ _ _ Hm1 Hc1) as [<- <-].
  destruct (classified_functional _ _ _ _ _ Hm2 Hc2) as [<- <-].
  rewrite E1 in H1. rewrite E2 in H2.
  pose proof (_register_effect lib k a1 n v1 r Hr) as He.
  pose proof (_register_consistent lib k a1 n v1 r Hr) as Hr1.
  rewrite H1 in He, Hr1. simpl in Hr1.
  destruct He as (obj & Hobj & Hs1 & _).
  exists obj. split; [done|].
  rewrite _register_eq in H2. apply Hr1 in Hobj as Hcache. rewrite Hcache in H2.
  rewrite send_value_eq in H2. destruct (reject_sample lib k v2); [discriminate|].
  injection H2 as <- _. unfold sent. simpl. split; [done|].
  by rewrite Hs1, <- app_assoc.
Qed.

End KeyNames.

(* ===================================================================== *)
(** ** More on a build: what it needs, what it records, what it prints *)
(* ===================================================================== *)

Section BuildOutcome.
Import PyStr.
Context (w : World) (lib : PrometheusClient) (PARSED : Namespace).




Lemma invisible_entries (self : RancherClient.t) (containers : list container) :
  Forall (fun c => exists a, describe self c = Some a /\ RancherClient.filter self a = false)
         containers ->
  exists entries,
    Forall2 (fun c a => describe self c = Some a) containers entries /\
    List.filter (RancherClient.filter self) entries = [].
Proof.
  induction 1 as [|c cs (a & Ha & Hf) _ (entries & He & Hnil)].
  - by exists [].
  - exists (a :: entries). split; [by constructor|]. simpl. by rewrite Hf.
Qed.

(** X13. When every container of the listing is on another host or is
    stopped, the build returns the empty registry, and nothing is printed:
    no instance is polled. *)
Theorem no_visible_instance_empty_registry (fuel : nat) (hosts : list host_entry)
    (self_name : string) (pages : list page)
    (Hhosts : hosts_endpoint w (rancher PARSED +:+ "hosts") = Decoded hosts)
    (Hself : text_endpoint w self_hostname_url = Decoded self_name)
    (Hlinked : linked w (Some (rancher PARSED +:+ "containers")) pages None)
    (Hinvisible : Forall (fun c => exists h, hosts_dict hosts !! hostId c = Some h /\
                                    (h <> self_name \/ state c = "stopped"))
                         (concat (page_data <$> pages)))
    (Hfuel : (length pages <= fuel)%nat) :
  generate_registry w lib PARSED fuel = (Ret new_registry, []).
Proof.
  destruct (init_decoded w (rancher PARSED) (image_filter PARSED) hosts self_name
              Hhosts Hself) as (self & Hinit & Hurl & Hmeta & Hname).
  destruct (invisible_entries self (concat (page_data <$> pages))) as (entries & He & Hnil).
  { eapply Forall_impl; [exact Hinvisible|]. intros c (h & Hh & Hno).
    exists (descriptor c h). unfold describe. rewrite Hmeta, Hh. split; [done|].
    unfold RancherClient.filter. simpl. rewrite Hname.
    destruct (String.eqb_spec h self_name) as [->|]; [|done]. simpl.
    destruct Hno as [? | ->]; done. }
  unfold generate_registry. rewrite Hinit.
  unfold RancherClient.get_spring_boot_apps.
  rewrite (while_url_linked w self pages entries) by (by rewrite ?Hurl).
  by rewrite Hnil.
Qed.





End BuildOutcome.

(* ===================================================================== *)
(** ** More on a build: its output, and when the handler answers 200 *)
(* ===================================================================== *)

Section BuildOutput.
Import PyStr.
Context (w : World) (lib : PrometheusClient) (PARSED : Namespace).

Lemma _register_silent (k : kind) (app : App) (n : string) (value : Q)
    (r : MetricsReader.t) :
  (MetricsReader._register lib k app n value r).2 = [].
Proof.
  rewrite _register_eq. destruct (MetricsReader.cache k r !! n).
  - rewrite send_value_eq. by destruct (reject_sample lib k value).
  - destruct (reject_collector lib _ k n); [done|].
    rewrite send_value_eq. by destruct (reject_sample lib k value).
Qed.

Lemma for_each_output {A} (Q : string -> Prop) (l : list A)
    (body : A -> MetricsReader.M unit) (r : MetricsReader.t) :
  (forall x r0, Forall Q (body x r0).2) ->
  Forall Q (MetricsReader.for_each l body r).2.
Proof.
  intros Hbody. revert r. induction l as [|x l IH]; intros r; simpl; [by constructor|].
  unfold MetricsReader.bind. specialize (Hbody x r).
  destruct (body x r) as [[[[]| |] r1] out]; simpl in *; try done.
  specialize (IH r1). destruct (MetricsReader.for_each l body r1) as [[? ?] out'].
  simpl in *. by apply Forall_app.
Qed.

Lemma register_metrics_output (app : App) (r : MetricsReader.t) :
  Forall (catch_line w) (MetricsReader.register_metrics w lib app r).2.
Proof.
  unfold MetricsReader.register_metrics, MetricsReader.load_metrics, MetricsReader.bind.
  destruct (metrics_endpoint w (MetricsReader._format_metrics_url app))
    as [err| |metrics] eqn:Hm; simpl.
  - constructor; [|constructor]. by exists app, err.
  - constructor.
  - pose proof (for_each_output (catch_line w) metrics
      (fun '(m, value) => MetricsReader.register_metric lib app m value) r) as Hfe.
    destruct (MetricsReader.for_each metrics _ r) as [[? ?] ?]. apply Hfe.
    intros [m value] r0.
    unfold MetricsReader.register_metric, MetricsReader._register_counter,
      MetricsReader._register_gauge, MetricsReader._register_summary.
    destruct (find m "counter" =? 0); [|destruct (find m "gauge" =? 0)];
      rewrite _register_silent; constructor.
Qed.

(** X16. Whatever happens in a build, every line it prints is the report
    of a request to an instance's [/metrics] endpoint that failed and was
    caught: ['Catch '] followed by the text of the error. *)
Theorem build_prints_only_caught_errors (fuel : nat) (line : string)
    (Hline : line ∈ (generate_registry w lib PARSED fuel).2) :
  catch_line w line.
Proof.
  unfold generate_registry in Hline.
  destruct (RancherClient.init w _ _) as [self| |];
    try (by apply elem_of_nil in Hline).
  destruct (RancherClient.get_spring_boot_apps w fuel self) as [apps| |];
    try (by apply elem_of_nil in Hline).
  pose proof (for_each_output (catch_line w) apps (MetricsReader.register_metrics w lib)
                (MetricsReader.init new_registry)
                (fun app r0 => register_metrics_output app r0)) as Hall.
  destruct (MetricsReader.for_each apps _ _) as [[[[]| |] r'] out]; simpl in *;
    rewrite Forall_forall in Hall; by apply Hall.
Qed.





End BuildOutput.

(* ===================================================================== *)
(** ** The further properties on the environments *)
(* ===================================================================== *)

Section EnvironmentFacts.
Import PyStr Scenario Environments.

Lemma load_hosts_metadata_last_wins_witness :
  hosts_endpoint w ("http://rancher/v1/" +:+ "hosts") = Decoded hosts /\
  exists m, RancherClient.load_hosts_metadata w "http://rancher/v1/" = Ret m /\
    (forall k, m !! k = None <-> forall h, h ∈ hosts -> host_id h <> k) /\
    (forall k v, m !! k = Some v <->
       exists before h after,
         hosts = before ++ h :: after /\ host_id h = k /\ host_hostname h = v /\
         forall h', h' ∈ after -> host_id h' <> k).
Proof.
  split; [reflexivity|].
  apply (load_hosts_metadata_last_wins w "http://rancher/v1/" hosts). reflexivity.
Defined.

Lemma init_filter_pattern_witness :
  RancherClient.init w "http://rancher/v1/" (Some "app,web") =
    Ret (client (Some ["app"; "web"])) /\
  RancherClient.filterPattern (client (Some ["app"; "web"])) <> Some [].
Proof.
  split; [reflexivity|].
  apply (init_filter_pattern w "http://rancher/v1/" (Some "app,web")
           (client (Some ["app"; "web"]))).
  reflexivity.
Defined.

Lemma single_pattern_filter_witness :
  RancherClient.init w "http://rancher/v1/" (Some "app") = Ret (client (Some ["app"])) /\
  (RancherClient.filter (client (Some ["app"])) other = true <->
   app_host other = "node-a" /\ app_state other <> "stopped" /\
   is_substring "app" (app_image other)).
Proof.
  split; [reflexivity|].
  apply (single_pattern_filter w "http://rancher/v1/" "app" (client (Some ["app"])) other).
  - reflexivity.
  - discriminate.
  - intros (a & b & H). change ("," +:+ b) with (String "," b) in H.
    destruct a as [|x1 [|x2 [|x3 [|x4 a]]]]; discriminate.
Defined.

Lemma listed_apps_are_visible_witness :
  RancherClient.get_spring_boot_apps w 3 (client None) =
    Ret (app_of <$> [c1; c2; c3; c4; c5; c6]) /\
  RancherClient.filter (client None) (app_of c5) = true /\
  app_host (app_of c5) = "node-a" /\ app_state (app_of c5) <> "stopped".
Proof.
  assert (Hlist : RancherClient.get_spring_boot_apps w 3 (client None) =
                  Ret (app_of <$> [c1; c2; c3; c4; c5; c6])) by (vm_compute; reflexivity).
  split; [exact Hlist|].
  apply (listed_apps_are_visible w (client None) 3 _ (app_of c5) Hlist).
  do 4 apply list_elem_of_further. apply list_elem_of_here.
Defined.

Lemma linked_cycle :
  linked w_cycle (Some "http://rancher/v1/containers?marker=2") [looping_page]
    (Some "http://rancher/v1/containers?marker=2").
Proof. exists "http://rancher/v1/containers?marker=2". by repeat split. Qed.

Lemma listing_cycle_never_returns_witness :
  pagination_next looping_page = Some "http://rancher/v1/containers?marker=2" /\
  RancherClient.get_spring_boot_apps w_cycle 1000 (client None) = OutOfFuel.
Proof.
  split; [reflexivity|].
  apply (listing_cycle_never_returns w_cycle (client None) [page1] [looping_page]
           (app_of <$> [c1; c2]) (app_of <$> [c3; c4])
           "http://rancher/v1/containers?marker=2" 1000).
  - exists "http://rancher/v1/containers". by repeat split.
  - exact linked_cycle.
  - discriminate.
  - repeat constructor.
  - repeat constructor.
Defined.

Lemma listing_stops_on_empty_next_witness :
  pagination_next blank_next_page = Some "" /\
  RancherClient.get_spring_boot_apps w_blank_next 1 (client None) =
    Ret [app_of c1; app_of c2].
Proof.
  split; [reflexivity|].
  rewrite (listing_stops_on_empty_next w_blank_next (client None) [blank_next_page]
             (app_of <$> [c1; c2]) 1).
  - reflexivity.
  - exists "http://rancher/v1/containers". by repeat split.
  - repeat constructor.
  - simpl. lia.
Defined.

Lemma listing_page_failure_witness :
  containers_endpoint w_broken_page "http://rancher/v1/containers?marker=2" =
    RequestFailed (Timeout "read timed out") /\
  RancherClient.get_spring_boot_apps w_broken_page 2 (client None) =
    Raise (RequestError (Timeout "read timed out")).
Proof.
  split; [reflexivity|].
  apply (listing_page_failure w_broken_page (client None) [page1] (app_of <$> [c1; c2])
           "http://rancher/v1/containers?marker=2" 2).
  - exists "http://rancher/v1/containers". by repeat split.
  - reflexivity.
  - repeat constructor.
  - simpl. lia.
Defined.

Lemma register_metrics_records_snapshot_witness :
  exists new,
    samples (MetricsReader.registry
      (MetricsReader.register_metrics w lib (app_of c1) reader1).1.2) =
      samples (MetricsReader.registry reader1) ++ new /\
    sample_payload <$> new =
      [(("svc1", None, "10.0.0.1"), 5%Q); (("svc1", None, "10.0.0.1"), 3%Q);
       (("svc1", None, "10.0.0.1"), (2 # 10)%Q)].
Proof.
  destruct (register_metrics_records_snapshot w lib (app_of c1)
              [("counter.requests.total", 5%Q); ("gauge.queue.size", 3%Q);
               ("latency", (2 # 10)%Q)]
              reader1 (MetricsReader.register_metrics w lib (app_of c1) reader1).1.2 [])
    as [_ Hnew]; [reflexivity | reflexivity | exact Hnew].
Defined.

Lemma not_prefixed (p m : string) : startswith p m = false -> ~ has_prefix p m.
Proof. intros H Hp. apply startswith_has_prefix in Hp. congruence. Qed.

Lemma same_name_shares_object_witness :
  sanitize_keys_agree /\
  exists obj,
    collectors (MetricsReader.registry two_keys_first) !! obj = Some (Summary, "a_b") /\
    collectors (MetricsReader.registry two_keys_second) =
      collectors (MetricsReader.registry two_keys_first) /\
    samples (MetricsReader.registry two_keys_second) =
      samples (MetricsReader.registry (MetricsReader.init new_registry)) ++
      [(obj, MetricsReader.labels_of (app_of c1), 1%Q);
       (obj, MetricsReader.labels_of (app_of c4), 2%Q)].
Proof.
  split; [reflexivity|].
  apply (same_name_shares_object lib (app_of c1) (app_of c4) "a.b" "a-b" 1%Q 2%Q
           Summary "a_b" (MetricsReader.init new_registry) two_keys_first two_keys_second
           [] [] consistent_init).
  - apply (classified_summary "a.b"); by apply not_prefixed.
  - apply (classified_summary "a-b"); by apply not_prefixed.
  - reflexivity.
  - reflexivity.
Defined.



Lemma invisible_containers :
  Forall (fun c => exists h, hosts_dict hosts !! hostId c = Some h /\
                   (h <> "node-a" \/ state c = "stopped"))
         (concat (page_data <$> [invisible_page])).
Proof.
  repeat constructor.
  - exists "node-a". split; [reflexivity | by right].
  - exists "node-b". split; [reflexivity | by left].
Qed.

Lemma no_visible_instance_empty_registry_witness :
  page_data invisible_page = [stopped_here; running_elsewhere] /\
  generate_registry w_invisible lib PARSED 1 = (Ret new_registry, []).
Proof.
  split; [reflexivity|].
  apply (no_visible_instance_empty_registry w_invisible lib PARSED 1 hosts "node-a"
           [invisible_page]).
  - reflexivity.
  - reflexivity.
  - exists "http://rancher/v1/containers". by repeat split.
  - exact invisible_containers.
  - simpl. lia.
Defined.




Lemma build_prints_only_caught_errors_witness :
  (generate_registry w lib PARSED 3).2 = ["Catch timed out"] /\
  catch_line w "Catch timed out".
Proof.
  assert (Hout : (generate_registry w lib PARSED 3).2 = ["Catch timed out"])
    by (vm_compute; reflexivity).
  split; [exact Hout|].
  apply (build_prints_only_caught_errors w lib PARSED 3). rewrite Hout.
  apply list_elem_of_here.
Defined.

End EnvironmentFacts.
